(** * The batch file writer of [index.js]

    A shallow embedding of the Express application of [src/index.js]: the
    origin check [isOriginAllowed], the CORS origin callback, and the
    [POST /tasks] route handler with its sequential read-then-write loop
    against the remote repository (Octokit).

    The handler is [async] code with an outer [try]/[catch] and, inside the
    loop, one [try]/[catch] around each of the two awaited calls to the
    remote service.  It is modelled in a state and exception monad over a
    "world" made of the state of the remote service and the log of the calls
    issued so far.  The remote service and the [Buffer] primitives of the
    platform are interfaces (type classes), so every theorem holds for
    whatever the remote service answers.

    [helmet], the JSON body parser and the [cors] middleware are packages the
    application loads; of the last one the origin callback, which the
    application supplies, is embedded, and [app_post_tasks] puts it in front
    of the route handler the way the package does.  The properties of the
    route handler are stated for the requests the handler is run on. *)

From Stdlib Require Import Strings.Ascii Strings.Byte.
From stdpp Require Import base option list strings pretty gmap.

Local Open Scope Z_scope.
#[local] Set Warnings "-register-all".

(** ** JavaScript values

    The request body is parsed JSON.  JSON numbers are modelled by integers
    (the safe ones, of magnitude below 2^53, which a double holds exactly and
    prints in decimal): the handler only tests them for truthiness and
    passes them on. *)

Inductive value : Type :=
| VUndefined
| VNull
| VBool (b : bool)
| VNum (n : Z)
| VStr (s : string)
| VArr (elems : list value)
| VObj (props : list (string * value)).

(** Thrown values: [Error] objects, of which the handler reads [message]. *)
Module Error.
Record t := make { name : string; message : string }.
End Error.

Definition TypeError (msg : string) : Error.t := Error.make "TypeError" msg.

(** The result of evaluating an expression or awaiting a promise. *)
Inductive outcome (A : Type) : Type :=
| Return (a : A)
| Throw (e : Error.t).
Arguments Return {A} a.
Arguments Throw {A} e.

(** [ToBoolean]. *)
Definition truthy (v : value) : bool :=
  match v with
  | VUndefined | VNull => false
  | VBool b => b
  | VNum n => negb (n =? 0)
  | VStr s => negb (String.eqb s "")
  | VArr _ | VObj _ => true
  end.

(** [a || b] on values. *)
Definition js_or (a b : value) : value := if truthy a then a else b.

(** [typeof v === 'undefined']. *)
Definition is_undefined (v : value) : bool :=
  match v with VUndefined => true | _ => false end.

(** [v === s] for a string literal [s]. *)
Definition strict_eq_string (v : value) (s : string) : bool :=
  match v with VStr s' => String.eqb s' s | _ => false end.

(** [Array.isArray(v)]. *)
Definition Array_isArray (v : value) : bool :=
  match v with VArr _ => true | _ => false end.

(** The elements of an array, in order ([for ... of], [length]). *)
Definition elements (v : value) : list value :=
  match v with VArr elems => elems | _ => [] end.

(** Own property of an object literal, [undefined] when absent. *)
Fixpoint own_property (k : string) (props : list (string * value)) : value :=
  match props with
  | [] => VUndefined
  | (k', v) :: rest => if String.eqb k k' then v else own_property k rest
  end.

Definition describe_nullish (v : value) : string :=
  match v with VNull => "null" | _ => "undefined" end.

(** Property read [o.k].  It throws a [TypeError] on [null] and
    [undefined].  The handler reads only [files], [commitMessage], [branch],
    [path], [content], [encoding], [data], [commit] and [sha], none of which
    is defined on the prototypes of arrays, strings, numbers or booleans, so
    on those values the read gives [undefined]. *)
Definition get (o : value) (k : string) : outcome value :=
  match o with
  | VUndefined | VNull =>
      Throw (TypeError ("Cannot read properties of " +:+ describe_nullish o
                        +:+ " (reading '" +:+ k +:+ "')"))
  | VObj props => Return (own_property k props)
  | VBool _ | VNum _ | VStr _ | VArr _ => Return VUndefined
  end.

(** ** The platform: [Buffer]

    [Buffer.from(string, 'utf8')], [Buffer.from(string, 'base64')] and
    [buf.toString('base64')] never throw; what they compute is the
    platform's business.  [Buffer.from] of an array or an object goes
    through [fromObject], which may throw. *)

Inductive encoding := Base64 | Utf8.

Class Platform := {
  Buffer_from_utf8 : string → list byte;
  Buffer_from_base64 : string → list byte;
  Buffer_toString_base64 : list byte → string;
  Buffer_from_object : value → outcome (list byte);
}.

Definition inspect_primitive (v : value) : string :=
  match v with
  | VNull => "null"
  | VUndefined => "undefined"
  | VBool true => "type boolean (true)"
  | VBool false => "type boolean (false)"
  | VNum n => "type number (" +:+ pretty n +:+ ")"
  | _ => "an instance of Object"
  end.

Definition ERR_INVALID_ARG_TYPE (v : value) : Error.t :=
  TypeError ("The first argument must be of type string or an instance of "
             +:+ "Buffer, ArrayBuffer, or Array or an Array-like Object. Received "
             +:+ inspect_primitive v).

(** [Buffer.from(v, enc)]: strings are decoded, arrays and objects are
    handed to [fromObject], every other value is a [TypeError]. *)
Definition Buffer_from `{Platform} (v : value) (enc : encoding) : outcome (list byte) :=
  match v with
  | VStr s =>
      Return (match enc with
              | Base64 => Buffer_from_base64 s
              | Utf8 => Buffer_from_utf8 s
              end)
  | VArr _ | VObj _ => Buffer_from_object v
  | VUndefined | VNull | VBool _ | VNum _ => Throw (ERR_INVALID_ARG_TYPE v)
  end.

(** ** Process-wide configuration, read once at startup *)

Record Config := {
  ALLOWED_ORIGINS : list string;
  OWNER : string;
  REPO : string;
  BRANCH : string;
}.

(** Line 18: [(env || '').split(',').map(s => s.trim()).filter(Boolean)].
    Strings stand for their UTF-8 bytes.  [trim] removes the ASCII white
    space (tab, line feed, vertical tab, form feed, carriage return, space);
    [String.prototype.trim] also removes the white space outside ASCII
    (U+00A0, U+FEFF and the like), so the two agree on ASCII strings, and on
    any string the program's entries are trimmed at least as far as the
    model's. *)

Fixpoint split_comma (s : string) : list string :=
  match s with
  | EmptyString => [EmptyString]
  | String c rest =>
      if Ascii.eqb c "," then EmptyString :: split_comma rest
      else match split_comma rest with
           | [] => [String c EmptyString]
           | x :: xs => String c x :: xs
           end
  end.

Definition is_space (c : ascii) : bool :=
  let n := N_of_ascii c in
  ((9 <=? n)%N && (n <=? 13)%N) || (n =? 32)%N.

Fixpoint trim_start (s : string) : string :=
  match s with
  | EmptyString => EmptyString
  | String c rest => if is_space c then trim_start rest else s
  end.

Fixpoint trim_end (s : string) : string :=
  match s with
  | EmptyString => EmptyString
  | String c rest =>
      match trim_end rest with
      | EmptyString => if is_space c then EmptyString else String c EmptyString
      | rest' => String c rest'
      end
  end.

Definition trim (s : string) : string := trim_end (trim_start s).

Definition ALLOWED_ORIGINS_of_env (env : option string) : list string :=
  filter (λ s, s ≠ "") (trim <$> split_comma (default "" env)).

(** ** Requests and responses *)

(** [get_origin] is [req.get('origin')] and [ip] is [req.ip]; both are a
    string or [undefined].  [body] is [req.body]. *)
Record Request := {
  get_origin : option string;
  ip : option string;
  body : value;
}.

Module FileResult.
Record t := make {
  path : value;
  status : string;
  reason : option string;
  message : option string;
  commitSha : option value;
}.
End FileResult.

Inductive Body :=
| ErrorBody (error : string)
| ResultsBody (ok : bool) (results : list FileResult.t).

Record Response := {
  statusCode : nat;
  json : Body;
}.

(** ** The remote repository service *)

Module GetContent.
Record params := make {
  owner : string;
  repo : string;
  path : value;
  ref : value;
}.
End GetContent.

Module CreateOrUpdate.
Record params := make {
  owner : string;
  repo : string;
  path : value;
  message : value;
  content : string;
  branch : value;
  sha : value;
}.
End CreateOrUpdate.

(** The two Octokit endpoints the handler awaits.  Each call takes the
    service from one state to the next and either resolves with a response
    object or rejects with an error.  The state is abstract: it may hold
    whatever decides the answers, the writes of other clients between two
    calls of this handler included. *)
Class Octokit (St : Type) := {
  repos_getContent : GetContent.params → St → outcome value * St;
  repos_createOrUpdateFileContents : CreateOrUpdate.params → St → outcome value * St;
}.

Inductive Call :=
| CallGetContent (p : GetContent.params)
| CallCreateOrUpdate (p : CreateOrUpdate.params).

Record World (St : Type) := mkWorld {
  remote : St;
  calls : list Call;
}.
Arguments mkWorld {St} remote calls.
Arguments remote {St} w.
Arguments calls {St} w.

(** ** The monad of the handler: state of the world and exceptions *)

Definition M (St A : Type) : Type := World St → outcome A * World St.

Definition ret {St A} (a : A) : M St A := fun w => (Return a, w).

Definition bind {St A B} (m : M St A) (k : A → M St B) : M St B :=
  fun w =>
    match m w with
    | (Return a, w') => k a w'
    | (Throw e, w') => (Throw e, w')
    end.

(** [try { m } catch (err) { h err }]: the effects of [m] up to the throw
    stay. *)
Definition try_catch {St A} (m : M St A) (h : Error.t → M St A) : M St A :=
  fun w =>
    match m w with
    | (Return a, w') => (Return a, w')
    | (Throw e, w') => h e w'
    end.

(** An expression evaluated inside the handler. *)
Definition eval {St A} (o : outcome A) : M St A := fun w => (o, w).

Declare Scope js_scope.
Delimit Scope js_scope with js.
Notation "'let*' x ':=' m 'in' k" := (bind m (fun x => k))
  (at level 10, x name, m at level 100, k at level 200) : js_scope.
Notation "'let*' ' p ':=' m 'in' k" := (bind m (fun p => k))
  (at level 10, p strict pattern, m at level 100, k at level 200) : js_scope.

(** [await octokit.repos.getContent(p)]. *)
Definition await_getContent `{Octokit St} (p : GetContent.params) : M St value :=
  fun w =>
    let '(r, s') := repos_getContent p (remote w) in
    (r, mkWorld s' (calls w ++ [CallGetContent p])).

(** [await octokit.repos.createOrUpdateFileContents(p)]. *)
Definition await_createOrUpdateFileContents `{Octokit St}
    (p : CreateOrUpdate.params) : M St value :=
  fun w =>
    let '(r, s') := repos_createOrUpdateFileContents p (remote w) in
    (r, mkWorld s' (calls w ++ [CallCreateOrUpdate p])).

(** ** The application *)

Section App.
Context `{Platform} `{Octokit St}.
Variable cfg : Config.

Local Open Scope js_scope.

(** [ALLOWED_ORIGINS.includes(x)] for [x] a string or [undefined]: the list
    holds strings only, so [undefined] is never found. *)
Definition includes (l : list string) (x : option string) : bool :=
  match x with
  | Some s => bool_decide (s ∈ l)
  | None => false
  end.

(** [a || b] where [a] is a string or [undefined]. *)
Definition or_string (a b : option string) : option string :=
  match a with
  | Some s => if String.eqb s "" then b else a
  | None => b
  end.

(** The [origin] function of [corsOptions]: [Return true] stands for
    [callback(null, true)], [Throw] for [callback(new Error(...))]. *)
Definition corsOptions_origin (origin : option string) : outcome bool :=
  match or_string origin None with
  | None => Return true
  | Some _ =>
      if (length (ALLOWED_ORIGINS cfg) =? 0)%nat
         || includes (ALLOWED_ORIGINS cfg) origin
      then Return true
      else Throw (Error.make "Error" "Not allowed by CORS")
  end.

Definition isOriginAllowed (req : Request) : bool :=
  let origin := or_string (or_string (get_origin req) (ip req)) (Some "") in
  if (length (ALLOWED_ORIGINS cfg) =? 0)%nat then true
  else includes (ALLOWED_ORIGINS cfg) origin
       || includes (ALLOWED_ORIGINS cfg) (ip req).

(** [const { files, commitMessage = ..., branch = BRANCH } = req.body]:
    destructuring [undefined] or [null] throws; a default applies when the
    property is [undefined]. *)
Definition with_default (v d : value) : value :=
  if is_undefined v then d else v.

Definition destructure_body (b : value) : outcome (value * value * value) :=
  match b with
  | VUndefined | VNull =>
      Throw (TypeError ("Cannot destructure property 'files' of 'req.body' as it is "
                        +:+ describe_nullish b +:+ "."))
  | VObj props =>
      Return (own_property "files" props,
              with_default (own_property "commitMessage" props)
                           (VStr "Agent: generate files"),
              with_default (own_property "branch" props) (VStr (BRANCH cfg)))
  | VBool _ | VNum _ | VStr _ | VArr _ =>
      Return (VUndefined, VStr "Agent: generate files", VStr (BRANCH cfg))
  end.

(** [!f.path || typeof f.content === 'undefined'], evaluated left to
    right with short circuit. *)
Definition invalid_file (f : value) : outcome bool :=
  match get f "path" with
  | Throw e => Throw e
  | Return p =>
      if negb (truthy p) then Return true
      else match get f "content" with
           | Throw e => Throw e
           | Return c => Return (is_undefined c)
           end
  end.

Definition skipped (p : value) : FileResult.t :=
  FileResult.make (js_or p VNull) "skipped" (Some "invalid file object") None None.

Definition ok_result (p commit_sha : value) : FileResult.t :=
  FileResult.make p "ok" None None (Some commit_sha).

Definition error_result (p : value) (err : Error.t) : FileResult.t :=
  FileResult.make p "error" None (Some (Error.message err)) None.

(** Lines 82-95: the read that obtains [sha]; [sha] stays [undefined]
    when the read rejects or the response carries no truthy [data.sha]. *)
Definition read_sha (fpath branch : value) : M St value :=
  try_catch
    (let* getRes := await_getContent
                      (GetContent.make (OWNER cfg) (REPO cfg) fpath branch) in
     if truthy getRes then
       let* data := eval (get getRes "data") in
       if truthy data then
         let* s := eval (get data "sha") in
         if truthy s then ret s else ret VUndefined
       else ret VUndefined
     else ret VUndefined)
    (fun err => ret VUndefined).

(** Lines 101-114: the write and the result pushed for it. *)
Definition write_file (fpath commitMessage branch : value) (encoded : string)
    (sha : value) (results : list FileResult.t) : M St (list FileResult.t) :=
  try_catch
    (let* createRes := await_createOrUpdateFileContents
                         (CreateOrUpdate.make (OWNER cfg) (REPO cfg) fpath
                            commitMessage encoded branch sha) in
     let* data := eval (get createRes "data") in
     let* commit := eval (get data "commit") in
     let* commit_sha := eval (get commit "sha") in
     ret (results ++ [ok_result fpath commit_sha]))
    (fun err => ret (results ++ [error_result fpath err])).

(** One iteration of [for (const f of files)]: [results] before, [results]
    after. *)
Definition loop_body (commitMessage branch : value) (f : value)
    (results : list FileResult.t) : M St (list FileResult.t) :=
  let* invalid := eval (invalid_file f) in
  let* fpath := eval (get f "path") in
  if invalid then ret (results ++ [skipped fpath])
  else
    let* sha := read_sha fpath branch in
    let* fcontent := eval (get f "content") in
    let* fencoding := eval (get f "encoding") in
    let* contentBuffer :=
      eval (Buffer_from fcontent
              (if strict_eq_string fencoding "base64" then Base64 else Utf8)) in
    let encoded := Buffer_toString_base64 contentBuffer in
    write_file fpath commitMessage branch encoded sha results.

Fixpoint for_files (commitMessage branch : value) (files : list value)
    (results : list FileResult.t) : M St (list FileResult.t) :=
  match files with
  | [] => ret results
  | f :: rest =>
      let* results' := loop_body commitMessage branch f results in
      for_files commitMessage branch rest results'
  end.

Definition respond (code : nat) (b : Body) : Response :=
  {| statusCode := code; json := b |}.

(** The route handler of [POST /tasks]. *)
Definition post_tasks (req : Request) : M St Response :=
  try_catch
    (if negb (isOriginAllowed req) then
       ret (respond 403 (ErrorBody "origin not allowed"))
     else
       let* '(files, commitMessage, branch) := eval (destructure_body (body req)) in
       if negb (Array_isArray files) || (length (elements files) =? 0)%nat then
         ret (respond 400 (ErrorBody "files array required"))
       else
         let* results := for_files commitMessage branch (elements files) [] in
         ret (respond 200 (ResultsBody true results)))
    (fun err =>
       ret (respond 500
              (ErrorBody (if String.eqb (Error.message err) ""
                          then "internal error" else Error.message err)))).

(** [GET /health]: the [status] field of the body sent. *)
Definition get_health : string := "ok".

End App.

(** ** A platform instance: Node's [Buffer] on byte strings

    Strings stand for their UTF-8 bytes, so the [utf8] decoding of a string
    is its list of bytes.  [toString('base64')] is the RFC 4648 encoding with
    padding.  The [base64] decoding is the lenient one of Node: it accepts
    the standard and the URL-safe alphabet, skips every other character and
    stops at the first [=].  The branch of arrays and objects is a stand-in
    that covers arrays of numbers and booleans (one byte per element, numbers
    modulo 256, [true] as 1, [false] as 0) and plain objects, which
    [fromObject] refuses; it is not Node's on array elements of other kinds
    nor on array-like or [{type: 'Buffer', data}] objects.  No property
    below depends on that branch. *)

Module NodeBuffer.

Definition alphabet : string :=
  "ABCDEFGHIJKLMNOPQRSTUVWXYZabcdefghijklmnopqrstuvwxyz0123456789+/".

Definition sextet_char (n : N) : ascii :=
  default "="%char (String.get (N.to_nat n) alphabet).

Fixpoint encode (bs : list byte) : string :=
  match bs with
  | [] => ""
  | [a] =>
      let n := Byte.to_N a in
      String (sextet_char (n / 4))
        (String (sextet_char ((n mod 4) * 16)) "==")
  | [a; b] =>
      let n := Byte.to_N a in
      let m := Byte.to_N b in
      String (sextet_char (n / 4))
        (String (sextet_char ((n mod 4) * 16 + m / 16))
           (String (sextet_char ((m mod 16) * 4)) "="))
  | a :: b :: c :: rest =>
      let n := Byte.to_N a in
      let m := Byte.to_N b in
      let k := Byte.to_N c in
      String (sextet_char (n / 4))
        (String (sextet_char ((n mod 4) * 16 + m / 16))
           (String (sextet_char ((m mod 16) * 4 + k / 64))
              (String (sextet_char (k mod 64)) (encode rest))))
  end%N.

Definition unbase64 (c : ascii) : option N :=
  let n := N_of_ascii c in
  if (65 <=? n)%N && (n <=? 90)%N then Some (n - 65)%N
  else if (97 <=? n)%N && (n <=? 122)%N then Some (n - 71)%N
  else if (48 <=? n)%N && (n <=? 57)%N then Some (n + 4)%N
  else if (n =? 43)%N || (n =? 45)%N then Some 62%N
  else if (n =? 47)%N || (n =? 95)%N then Some 63%N
  else None.

Fixpoint sextets (s : string) : list N :=
  match s with
  | EmptyString => []
  | String c rest =>
      if Ascii.eqb c "=" then []
      else match unbase64 c with
           | Some n => n :: sextets rest
           | None => sextets rest
           end
  end.

Definition byte_of_N (n : N) : byte := default x00 (Byte.of_N (n mod 256)).

Fixpoint bytes_of_sextets (l : list N) : list byte :=
  match l with
  | a :: b :: c :: d :: rest =>
      byte_of_N (a * 4 + b / 16) :: byte_of_N ((b mod 16) * 16 + c / 4)
        :: byte_of_N ((c mod 4) * 64 + d) :: bytes_of_sextets rest
  | [a; b; c] =>
      [byte_of_N (a * 4 + b / 16); byte_of_N ((b mod 16) * 16 + c / 4)]
  | [a; b] => [byte_of_N (a * 4 + b / 16)]
  | _ => []
  end%N.

Definition decode (s : string) : list byte := bytes_of_sextets (sextets s).

Definition uint8 (v : value) : byte :=
  match v with
  | VNum n => byte_of_N (Z.to_N (n mod 256))
  | VBool true => x01
  | _ => x00
  end.

Definition from_object (v : value) : outcome (list byte) :=
  match v with
  | VArr elems => Return (uint8 <$> elems)
  | _ => Throw (ERR_INVALID_ARG_TYPE v)
  end.

#[export] Instance platform : Platform := {
  Buffer_from_utf8 := String.list_byte_of_string;
  Buffer_from_base64 := decode;
  Buffer_toString_base64 := encode;
  Buffer_from_object := from_object;
}.

End NodeBuffer.

(** ** A remote service instance: a repository held in memory

    Blobs are kept per branch and path.  A read of a missing file rejects
    with [Not Found].  A write creates the file when no [sha] is given and
    the file is missing, updates it when the [sha] given is the current one,
    and rejects otherwise; a path that starts with a slash is rejected, as
    the hosted service does.  The blob identifier is derived from the
    content, the commit identifier from the number of commits made. *)

Module MemoryRepo.

Record t := make {
  blobs : gmap (string * string) string;
  commits : nat;
}.

Definition empty : t := make ∅ 0.

Definition HttpError (msg : string) : Error.t := Error.make "HttpError" msg.

Definition blob_sha (content : string) : string := "blob:" +:+ content.

Definition file_response (sha : string) : value :=
  VObj [("status", VNum 200); ("data", VObj [("type", VStr "file"); ("sha", VStr sha)])].

Definition commit_response (code : Z) (blob commit : string) : value :=
  VObj [("status", VNum code);
        ("data", VObj [("content", VObj [("sha", VStr blob)]);
                       ("commit", VObj [("sha", VStr commit)])])].

Definition leading_slash (p : string) : bool :=
  match p with String "/" _ => true | _ => false end.

Definition getContent (p : GetContent.params) (r : t) : outcome value * t :=
  match GetContent.path p, GetContent.ref p with
  | VStr path, VStr ref =>
      match blobs r !! (ref, path) with
      | Some sha => (Return (file_response sha), r)
      | None => (Throw (HttpError "Not Found"), r)
      end
  | _, _ => (Throw (HttpError "Not Found"), r)
  end.

Definition commit (branch path content : string) (code : Z) (r : t)
    : outcome value * t :=
  let n := S (commits r) in
  (Return (commit_response code (blob_sha content) ("commit:" +:+ pretty n)),
   make (<[(branch, path) := blob_sha content]> (blobs r)) n).

Definition createOrUpdateFileContents (p : CreateOrUpdate.params) (r : t)
    : outcome value * t :=
  match CreateOrUpdate.path p, CreateOrUpdate.branch p with
  | VStr path, VStr branch =>
      if leading_slash path then
        (Throw (HttpError "path cannot start with a slash"), r)
      else
        match blobs r !! (branch, path), CreateOrUpdate.sha p with
        | None, VUndefined => commit branch path (CreateOrUpdate.content p) 201 r
        | Some cur, VStr given =>
            if String.eqb cur given
            then commit branch path (CreateOrUpdate.content p) 200 r
            else (Throw (HttpError (path +:+ " does not match " +:+ given)), r)
        | Some _, _ =>
            (Throw (HttpError "Invalid request. sha wasn't supplied."), r)
        | None, _ => (Throw (HttpError "Not Found"), r)
        end
  | _, _ => (Throw (HttpError "Invalid request."), r)
  end.

#[export] Instance octokit : Octokit t := {
  repos_getContent := getContent;
  repos_createOrUpdateFileContents := createOrUpdateFileContents;
}.

Definition world (r : t) : World t := mkWorld r [].

End MemoryRepo.

(** ** A remote service instance: scripted answers

    The service answers the calls it receives with the outcomes of a script,
    in order, whatever the calls are. *)

Module ScriptedService.

Definition t : Type := list (outcome value).

Definition next (script : t) : outcome value * t :=
  match script with
  | [] => (Throw (Error.make "HttpError" "socket hang up"), [])
  | o :: rest => (o, rest)
  end.

#[export] Instance octokit : Octokit t := {
  repos_getContent := λ _, next;
  repos_createOrUpdateFileContents := λ _, next;
}.

End ScriptedService.

(** ** Derived notions used to state the properties *)

(** Total property read, for the guarded chains of the handler. *)
Definition prop (o : value) (k : string) : value :=
  match get o k with
  | Return v => v
  | Throw _ => VUndefined
  end.

(** What the read leaves in [sha] (lines 90-92), as a function of the
    outcome of the call. *)
Definition revision_marker (o : outcome value) : value :=
  match o with
  | Throw _ => VUndefined
  | Return getRes =>
      let s := prop (prop getRes "data") "sha" in
      if truthy s then s else VUndefined
  end.

(** [createRes.data.commit.sha], which throws when a link is missing. *)
Definition commit_sha_of (createRes : value) : outcome value :=
  match get createRes "data" with
  | Throw e => Throw e
  | Return data =>
      match get data "commit" with
      | Throw e => Throw e
      | Return commit => get commit "sha"
      end
  end.

(** The result pushed after the write (lines 111 and 113), as a function
    of the outcome of the call. *)
Definition write_result (p : value) (o : outcome value) : FileResult.t :=
  match o with
  | Throw err => FileResult.make p "error" None (Some (Error.message err)) None
  | Return createRes =>
      match commit_sha_of createRes with
      | Return s => FileResult.make p "ok" None None (Some s)
      | Throw err => FileResult.make p "error" None (Some (Error.message err)) None
      end
  end.

(** The encoding picked at line 98. *)
Definition encoding_of (fencoding : value) : encoding :=
  if strict_eq_string fencoding "base64" then Base64 else Utf8.

(** The parameters of the two calls made for an entry. *)
Definition read_params (cfg : Config) (p branch : value) : GetContent.params :=
  GetContent.make (OWNER cfg) (REPO cfg) p branch.

Definition write_params (cfg : Config) (p commitMessage branch : value)
    (encoded : string)
    (sha : value) : CreateOrUpdate.params :=
  CreateOrUpdate.make (OWNER cfg) (REPO cfg) p commitMessage encoded branch sha.

(** The message of the 500 response: [err.message || 'internal error']. *)
Definition message_or_default (err : Error.t) : string :=
  if String.eqb (Error.message err) "" then "internal error" else Error.message err.

(** What the handler answers once the loop has ended or thrown. *)
Definition conclude {St} (r : outcome (list FileResult.t) * World St)
    : outcome Response * World St :=
  match r with
  | (Return rs, w) => (Return (respond 200 (ResultsBody true rs)), w)
  | (Throw err, w) => (Return (respond 500 (ErrorBody (message_or_default err))), w)
  end.

(** A batch accepted for processing: the origin check passes and [files]
    is a non-empty array [fs]; [commitMessage] and [branch] are the values
    the destructuring gives. *)
Definition accepted (cfg : Config) (req : Request) (fs : list value)
    (commitMessage branch : value) : Prop :=
  isOriginAllowed cfg req = true
  ∧ destructure_body cfg (body req) = Return (VArr fs, commitMessage, branch)
  ∧ fs ≠ [].

(** An entry the loop gets past: one that fails the validation of line 76,
    or one whose content [Buffer.from] takes. *)
Definition processable `{Platform} (f : value) : Prop :=
  invalid_file f = Return true
  ∨ (invalid_file f = Return false
     ∧ ∃ buf, Buffer_from (prop f "content") (encoding_of (prop f "encoding"))
              = Return buf).

(** ** Concrete inputs *)

Import NodeBuffer MemoryRepo ScriptedService.

Definition cfg_open : Config :=
  {| ALLOWED_ORIGINS := []; OWNER := "acme"; REPO := "site"; BRANCH := "main" |}.

Definition cfg_app : Config :=
  {| ALLOWED_ORIGINS := ["https://app.example"];
     OWNER := "acme"; REPO := "site"; BRANCH := "main" |}.

Definition cfg_app_and_host : Config :=
  {| ALLOWED_ORIGINS := ["https://app.example"; "10.0.0.5"];
     OWNER := "acme"; REPO := "site"; BRANCH := "main" |}.

Definition file_spec (p c : string) : value :=
  VObj [("path", VStr p); ("content", VStr c)].

Definition batch (fs : list value) : value := VObj [("files", VArr fs)].

(** A server-to-server call: no [Origin] header. *)
Definition server_call (a : string) (b : value) : Request :=
  {| get_origin := None; ip := Some a; body := b |}.

(** A browser call: an [Origin] header. *)
Definition browser_call (o a : string) (b : value) : Request :=
  {| get_origin := Some o; ip := Some a; body := b |}.

Definition fresh : World MemoryRepo.t := MemoryRepo.world MemoryRepo.empty.

Definition default_message : value := VStr "Agent: generate files".
Definition main : value := VStr "main".

(** The world after [a.txt] has been created with content [hi] in the empty
    repository. *)
Definition after_a : World MemoryRepo.t :=
  mkWorld
    (MemoryRepo.make (<[("main", "a.txt") := "blob:aGk="]> ∅) 1)
    [CallGetContent (GetContent.make "acme" "site" (VStr "a.txt") main);
     CallCreateOrUpdate
       (CreateOrUpdate.make "acme" "site" (VStr "a.txt") default_message
          "aGk=" main VUndefined)].

Definition ok_a : FileResult.t :=
  FileResult.make (VStr "a.txt") "ok" None None (Some (VStr "commit:1")).

Definition file_a_again : value := file_spec "a.txt" "ho".

Definition file_b64 : value :=
  VObj [("path", VStr "logo.bin"); ("content", VStr "aGk"); ("encoding", VStr "base64")].

(** A service whose read fails with a server error and whose write then
    succeeds. *)
Definition flaky : World ScriptedService.t :=
  mkWorld
    [Throw (MemoryRepo.HttpError "Server Error");
     Return (MemoryRepo.commit_response 201 "blob:aGk=" "commit:1")]
    [].

Definition null_content (p : string) : value :=
  VObj [("path", VStr p); ("content", VNull)].

Definition number_content (p : string) (n : Z) : value :=
  VObj [("path", VStr p); ("content", VNum n)].

(** ** Startup (lines 17-28)

    The environment of the process, each variable a string or [undefined]. *)

Record Env := {
  env_PORT : option string;
  env_ALLOWED_ORIGINS : option string;
  env_TARGET_REPO_OWNER : option string;
  env_TARGET_REPO_NAME : option string;
  env_TARGET_BRANCH : option string;
  env_AGENT_GITHUB_TOKEN : option string;
  env_USER_AGENT : option string;
}.

(** [!v] for a string or [undefined]. *)
Definition falsy (v : option string) : bool :=
  match v with
  | Some s => String.eqb s ""
  | None => true
  end.

(** [v || d] for a string literal [d]. *)
Definition or_literal (v : option string) (d : string) : string :=
  match v with
  | Some s => if String.eqb s "" then d else s
  | None => d
  end.

(** What the module holds once it is loaded: the configuration the handler
    reads, the credential and the client identity given to Octokit, and the
    port, which is the string of the environment or the number 3000. *)
Record Settings := {
  config : Config;
  TOKEN : string;
  USER_AGENT : string;
  PORT : value;
}.

(** Lines 17-28.  [None] stands for [process.exit(1)]. *)
Definition startup (env : Env) : option Settings :=
  if falsy (env_TARGET_REPO_OWNER env) || falsy (env_TARGET_REPO_NAME env)
     || falsy (env_AGENT_GITHUB_TOKEN env)
  then None
  else Some {|
    config := {|
      ALLOWED_ORIGINS := ALLOWED_ORIGINS_of_env (env_ALLOWED_ORIGINS env);
      OWNER := default "" (env_TARGET_REPO_OWNER env);
      REPO := default "" (env_TARGET_REPO_NAME env);
      BRANCH := or_literal (env_TARGET_BRANCH env) "main";
    |};
    TOKEN := default "" (env_AGENT_GITHUB_TOKEN env);
    USER_AGENT := or_literal (env_USER_AGENT env) "internal-coding-agent";
    PORT := match env_PORT env with
            | Some s => if String.eqb s "" then VNum 3000 else VStr s
            | None => VNum 3000
            end;
  |}.

(** ** The route behind the CORS middleware (lines 44 and 63)

    [app.use(cors(corsOptions))] runs before the route.  The [cors] package
    calls the origin callback of the application with the [Origin] header
    and, when the callback reports an error, hands that error to Express
    ([next(err)]) instead of going on to the route.  The application mounts
    no error handler, so Express answers such an error itself (with status
    500).  What becomes of a request is thus an answer of the route handler
    or an error left to Express. *)

Inductive Outcome :=
| Answered (r : Response)
| PassedToExpress (e : Error.t).

Definition app_post_tasks `{Platform} `{Octokit St} (cfg : Config)
    (req : Request) (w : World St) : Outcome * World St :=
  match corsOptions_origin cfg (get_origin req) with
  | Throw e => (PassedToExpress e, w)
  | Return _ =>
      match post_tasks cfg req w with
      | (Return r, w') => (Answered r, w')
      | (Throw e, w') => (PassedToExpress e, w')
      end
  end.

(** Only ASCII characters in a string. *)
Fixpoint ascii_only (s : string) : bool :=
  match s with
  | EmptyString => true
  | String c rest => (N_of_ascii c <? 128)%N && ascii_only rest
  end.

(** ** Notions for the further properties *)

(** No comma in a string. *)
Fixpoint comma_free (s : string) : bool :=
  match s with
  | EmptyString => true
  | String c rest => negb (Ascii.eqb c ",") && comma_free rest
  end.

(** Only commas and ASCII white space in a string. *)
Fixpoint blank (s : string) : bool :=
  match s with
  | EmptyString => true
  | String c rest => (Ascii.eqb c "," || is_space c) && blank rest
  end.

(** Only ASCII white space in a string. *)
Fixpoint only_spaces (s : string) : bool :=
  match s with
  | EmptyString => true
  | String c rest => is_space c && only_spaces rest
  end.

(** The first and the last character of a string. *)
Definition first_char (s : string) : option ascii :=
  match s with
  | EmptyString => None
  | String c _ => Some c
  end.

Fixpoint last_char (s : string) : option ascii :=
  match s with
  | EmptyString => None
  | String c EmptyString => Some c
  | String _ rest => last_char rest
  end.

(** The entries the loop skips. *)
Definition skips (f : value) : bool :=
  match invalid_file f with
  | Return true => true
  | _ => false
  end.

(** The calls a run of the loop may leave in the log, for a configuration, a
    commit message and a branch: for each entry handled, a read of a truthy
    path on the branch, followed at once by the write of the same path on
    the same branch with the commit message; a read without its write can
    only be the last call. *)
Inductive exchanges (cfg : Config) (commitMessage branch : value)
    : list Call → Prop :=
| exchanges_nil : exchanges cfg commitMessage branch []
| exchanges_read p :
    truthy p = true →
    exchanges cfg commitMessage branch [CallGetContent (read_params cfg p branch)]
| exchanges_read_write p encoded sha rest :
    truthy p = true →
    exchanges cfg commitMessage branch rest →
    exchanges cfg commitMessage branch
      (CallGetContent (read_params cfg p branch)
       :: CallCreateOrUpdate (write_params cfg p commitMessage branch encoded sha)
       :: rest).

Definition is_read (c : Call) : bool :=
  match c with CallGetContent _ => true | CallCreateOrUpdate _ => false end.

Definition reads (l : list Call) : nat := length (filter (λ c, is_read c = true) l).
Definition writes (l : list Call) : nat := length (filter (λ c, is_read c = false) l).

(** The values [commitMessage] and [branch] take at line 69. *)
Definition commitMessage_of (b : value) : value :=
  with_default (prop b "commitMessage") (VStr "Agent: generate files").

Definition branch_of (cfg : Config) (b : value) : value :=
  with_default (prop b "branch") (VStr (BRANCH cfg)).

(** [v == null]. *)
Definition nullish (v : value) : bool :=
  match v with VUndefined | VNull => true | _ => false end.

(** What a result says of the entry it is pushed for. *)
Definition result_of (f : value) (r : FileResult.t) : Prop :=
  FileResult.path r = js_or (prop f "path") VNull
  ∧ (skips f = true → r = skipped (prop f "path"))
  ∧ (skips f = false
     → FileResult.status r = "ok" ∨ FileResult.status r = "error").

(** An environment with an empty branch and no port. *)
Definition env_sample : Env :=
  {| env_PORT := None;
     env_ALLOWED_ORIGINS := Some "https://app.example, 10.0.0.5";
     env_TARGET_REPO_OWNER := Some "acme";
     env_TARGET_REPO_NAME := Some "site";
     env_TARGET_BRANCH := Some "";
     env_AGENT_GITHUB_TOKEN := Some "ghp_token";
     env_USER_AGENT := None |}.

(** A service whose read finds nothing and whose write resolves with a
    response that has no [commit]. *)
Definition resolves_without_commit : World ScriptedService.t :=
  mkWorld
    [Throw (MemoryRepo.HttpError "Not Found");
     Return (VObj [("status", VNum 201); ("data", VObj [("content", VNull)])])]
    [].

(** * Properties *)

(** ** The configuration *)

Lemma ALLOWED_ORIGINS_of_env_entries (env : option string) :
  "" ∉ ALLOWED_ORIGINS_of_env env.
Proof.
  unfold ALLOWED_ORIGINS_of_env. rewrite list_elem_of_filter. tauto.
Qed.

Example ALLOWED_ORIGINS_of_env_unset : ALLOWED_ORIGINS_of_env None = [].
Proof. reflexivity. Qed.

Example ALLOWED_ORIGINS_of_env_two :
  ALLOWED_ORIGINS_of_env (Some "https://a.example, https://b.example ,,")
  = ["https://a.example"; "https://b.example"].
Proof. reflexivity. Qed.

(** ** The origin check *)

Section OriginCheck.
Variable cfg : Config.

Lemma length_eqb_0 {A} (l : list A) : (length l =? 0)%nat = true ↔ l = [].
Proof. destruct l; simpl; split; (done || discriminate). Qed.

Lemma includes_true l x : includes l x = true ↔ ∃ s, x = Some s ∧ s ∈ l.
Proof.
  destruct x as [s|]; simpl.
  - rewrite bool_decide_eq_true. split; [eauto | intros (? & [= <-] & ?); done].
  - split; [discriminate | intros (? & [=] & _)].
Qed.

Lemma includes_false l x : includes l x = false ↔ ∀ s, x = Some s → s ∉ l.
Proof.
  destruct x as [s|]; simpl.
  - rewrite bool_decide_eq_false. split; [by intros ? ? [= <-] | eauto].
  - split; [intros _ ? [=] | done].
Qed.

(** With no [Origin] header, [origin] is the source address, or the empty
    string when there is none. *)
Lemma origin_without_header (a : option string) :
  or_string (or_string None a) (Some "") = Some (default "" a).
Proof.
  destruct a as [s|]; simpl; [| done].
  destruct (String.eqb s "") eqn:E; [| done].
  apply String.eqb_eq in E. by subst.
Qed.

Lemma isOriginAllowed_empty_list (req : Request) :
  ALLOWED_ORIGINS cfg = [] → isOriginAllowed cfg req = true.
Proof. intros E. unfold isOriginAllowed. by rewrite E. Qed.

Lemma isOriginAllowed_ip (req : Request) (a : string) :
  ip req = Some a → a ∈ ALLOWED_ORIGINS cfg → isOriginAllowed cfg req = true.
Proof.
  intros Hip Hin. unfold isOriginAllowed.
  destruct (length _ =? 0)%nat; [done |].
  rewrite Hip. apply orb_true_iff. right. simpl. by apply bool_decide_eq_true.
Qed.

End OriginCheck.

Section Loop.
Context `{Platform} `{Octokit St}.
Variable cfg : Config.
Implicit Types (w : World St) (f p c : value) (rs : list FileResult.t).

Lemma truthy_get v k : truthy v = true → get v k = Return (prop v k).
Proof. destruct v; simpl; try discriminate; intros _; unfold prop; simpl; eauto. Qed.

Lemma falsy_prop v k : truthy v = false → truthy (prop v k) = false.
Proof.
  unfold prop. destruct v; simpl; try done.
  all: intros _; done.
Qed.

(** The read never throws: it makes one call and leaves the marker. *)
Lemma read_sha_run p branch w :
  read_sha cfg p branch w
  = (Return (revision_marker (repos_getContent (read_params cfg p branch) (remote w)).1),
     mkWorld (repos_getContent (read_params cfg p branch) (remote w)).2
             (calls w ++ [CallGetContent (read_params cfg p branch)])).
Proof.
  unfold read_sha, try_catch, bind, await_getContent, read_params.
  destruct (repos_getContent _ _) as [[getRes|e] s1]; simpl; [| done].
  destruct (truthy getRes) eqn:T1.
  - unfold eval. rewrite (truthy_get _ "data" T1).
    destruct (truthy (prop getRes "data")) eqn:T2.
    + rewrite (truthy_get _ "sha" T2). by destruct (truthy (prop (prop getRes "data") "sha")).
    + unfold ret. by rewrite (falsy_prop _ "sha" T2).
  - unfold ret.
    by rewrite (falsy_prop _ "sha" (falsy_prop _ "data" T1)).
Qed.

(** The write never throws either: one call, one result pushed. *)
Lemma write_file_run p commitMessage branch encoded sha rs w :
  write_file cfg p commitMessage branch encoded sha rs w
  = (Return (rs ++ [write_result p
                      (repos_createOrUpdateFileContents
                         (write_params cfg p commitMessage branch encoded sha)
                         (remote w)).1]),
     mkWorld (repos_createOrUpdateFileContents
                (write_params cfg p commitMessage branch encoded sha) (remote w)).2
             (calls w ++ [CallCreateOrUpdate
                            (write_params cfg p commitMessage branch encoded sha)])).
Proof.
  unfold write_file, try_catch, bind, await_createOrUpdateFileContents, write_params.
  destruct (repos_createOrUpdateFileContents _ _) as [[createRes|e] s2]; simpl; [| done].
  unfold eval, commit_sha_of.
  destruct (get createRes "data") as [data|e]; [| done].
  destruct (get data "commit") as [commit|e]; [| done].
  by destruct (get commit "sha").
Qed.

(** The two ways past the validation of line 76. *)
Lemma invalid_file_true f :
  invalid_file f = Return true →
  ∃ p, get f "path" = Return p
       ∧ (truthy p = false ∨ get f "content" = Return VUndefined).
Proof.
  unfold invalid_file. destruct (get f "path") as [p|] eqn:Gp; [| done].
  destruct (truthy p) eqn:T; simpl.
  - destruct (get f "content") as [c|]; [| done].
    intros [= Hc]. exists p. split; [done |]. right. by destruct c.
  - intros _. exists p. split; [done |]. by left.
Qed.

Lemma invalid_file_false f :
  invalid_file f = Return false →
  ∃ p c, get f "path" = Return p ∧ truthy p = true
         ∧ get f "content" = Return c ∧ is_undefined c = false.
Proof.
  unfold invalid_file. destruct (get f "path") as [p|] eqn:Gp; [| done].
  destruct (truthy p) eqn:T; simpl; [| done].
  destruct (get f "content") as [c|]; [| done].
  intros [= Hc]. by exists p, c.
Qed.

(** An invalid entry: its result is pushed and the world is untouched. *)
Lemma loop_body_invalid commitMessage branch f p rs w :
  invalid_file f = Return true → get f "path" = Return p →
  loop_body cfg commitMessage branch f rs w = (Return (rs ++ [skipped p]), w).
Proof.
  intros Hinv Hp. unfold loop_body, bind, eval. by rewrite Hinv, Hp.
Qed.

(** A valid entry: the read, then the decoding of the content, which may
    throw, then the write. *)
Lemma loop_body_valid commitMessage branch f p c rs w :
  invalid_file f = Return false →
  get f "path" = Return p → get f "content" = Return c →
  let w1 := (read_sha cfg p branch w).2 in
  let sha := revision_marker
               (repos_getContent (read_params cfg p branch) (remote w)).1 in
  loop_body cfg commitMessage branch f rs w
  = match Buffer_from c (encoding_of (prop f "encoding")) with
    | Throw e => (Throw e, w1)
    | Return buf =>
        write_file cfg p commitMessage branch (Buffer_toString_base64 buf) sha rs w1
    end.
Proof.
  intros Hinv Hp Hc. simpl.
  unfold loop_body, bind at 1 2 3, eval at 1 2. rewrite Hinv, Hp.
  rewrite read_sha_run. cbn [fst snd].
  unfold bind, eval. rewrite Hc.
  assert (get f "encoding" = Return (prop f "encoding")) as ->.
  { unfold prop. destruct f; simpl in *; done. }
  unfold encoding_of.
  by destruct (Buffer_from _ _).
Qed.

End Loop.

(** ** The handler around the loop *)

Section Handler.
Context `{Platform} `{Octokit St}.
Variable cfg : Config.
Implicit Types (w : World St) (f p c : value) (rs : list FileResult.t)
  (fs pre post : list value).

Lemma post_tasks_accepted req fs commitMessage branch w :
  accepted cfg req fs commitMessage branch →
  post_tasks cfg req w = conclude (for_files cfg commitMessage branch fs [] w).
Proof.
  intros (Ho & Hb & Hne).
  unfold post_tasks, try_catch, bind at 1, eval. rewrite Ho, Hb. simpl.
  destruct fs as [|f fs']; [done |]. simpl.
  unfold bind at 1.
  by destruct (bind _ _ w) as [[rs|e] w'].
Qed.

Lemma post_tasks_rejected req w :
  isOriginAllowed cfg req = false →
  post_tasks cfg req w = (Return (respond 403 (ErrorBody "origin not allowed")), w).
Proof. intros Ho. unfold post_tasks, try_catch. by rewrite Ho. Qed.

(** The handler always answers. *)
Lemma post_tasks_responds req w : ∃ r, (post_tasks cfg req w).1 = Return r.
Proof.
  unfold post_tasks, try_catch.
  destruct (_ w) as [[r|e] w']; simpl; eauto.
Qed.

Lemma for_files_app commitMessage branch pre post rs w :
  for_files cfg commitMessage branch (pre ++ post) rs w
  = match for_files cfg commitMessage branch pre rs w with
    | (Return rs', w') => for_files cfg commitMessage branch post rs' w'
    | (Throw e, w') => (Throw e, w')
    end.
Proof.
  revert rs w. induction pre as [|f pre IH]; intros rs w; simpl; [done |].
  unfold bind. destruct (loop_body _ _ _ _ _ _) as [[rs'|e] w']; [apply IH | done].
Qed.

(** Every iteration that ends pushes exactly one result. *)
Lemma loop_body_pushes_one commitMessage branch f rs w rs' w' :
  loop_body cfg commitMessage branch f rs w = (Return rs', w') →
  ∃ r, rs' = rs ++ [r] ∧ FileResult.path r = js_or (prop f "path") VNull.
Proof.
  destruct (invalid_file f) as [[|]|e] eqn:Hinv.
  - destruct (invalid_file_true f Hinv) as (p & Hp & _).
    rewrite (loop_body_invalid cfg _ _ _ p) by done.
    intros [= <- <-]. eexists. split; [done |].
    unfold prop. rewrite Hp. done.
  - destruct (invalid_file_false f Hinv) as (p & c & Hp & Tp & Hc & _).
    rewrite (loop_body_valid cfg _ _ _ p c) by done.
    destruct (Buffer_from _ _); [| done].
    rewrite write_file_run. intros [= <- <-]. eexists. split; [done |].
    unfold prop, js_or. rewrite Hp, Tp.
    unfold write_result. by repeat case_match.
  - unfold loop_body, bind, eval. by rewrite Hinv.
Qed.

(** The results of a loop that ends: the ones it started from, then one
    per file, in the order of the files. *)
Lemma for_files_results commitMessage branch fs rs w res w' :
  for_files cfg commitMessage branch fs rs w = (Return res, w') →
  ∃ new, res = rs ++ new
         ∧ Forall2 (λ f r, FileResult.path r = js_or (prop f "path") VNull) fs new.
Proof.
  revert rs w. induction fs as [|f fs IH]; intros rs w; simpl.
  - intros [= <- <-]. exists []. by rewrite app_nil_r.
  - unfold bind. destruct (loop_body _ _ _ _ _ _) as [[rs1|e] w1] eqn:Hb; [| done].
    destruct (loop_body_pushes_one _ _ _ _ _ _ _ Hb) as (r & -> & Hr).
    intros Hrest. destruct (IH _ _ Hrest) as (new & -> & Hnew).
    exists (r :: new). rewrite <- app_assoc. split; [done |]. by constructor.
Qed.

Lemma for_files_length commitMessage branch fs rs w res w' :
  for_files cfg commitMessage branch fs rs w = (Return res, w') →
  length res = (length rs + length fs)%nat.
Proof.
  intros Hrun. destruct (for_files_results _ _ _ _ _ _ _ Hrun) as (new & -> & Hnew).
  rewrite length_app. by rewrite (Forall2_length _ _ _ Hnew).
Qed.

(** A result pushed is never removed or moved. *)
Lemma for_files_keeps commitMessage branch fs rs w res w' i r :
  for_files cfg commitMessage branch fs rs w = (Return res, w') →
  rs !! i = Some r → res !! i = Some r.
Proof.
  intros Hrun Hi. destruct (for_files_results _ _ _ _ _ _ _ Hrun) as (new & -> & _).
  by apply lookup_app_l_Some.
Qed.

(** When the files before [f] are processed without a throw, the handler
    goes on with [f] from the results and the world they left. *)
Lemma post_tasks_reaches req commitMessage branch pre f post rs w0 w :
  accepted cfg req (pre ++ f :: post) commitMessage branch →
  for_files cfg commitMessage branch pre [] w0 = (Return rs, w) →
  post_tasks cfg req w0
  = conclude (match loop_body cfg commitMessage branch f rs w with
              | (Return rs', w') => for_files cfg commitMessage branch post rs' w'
              | (Throw e, w') => (Throw e, w')
              end)
  ∧ length rs = length pre.
Proof.
  intros Hacc Hpre. split.
  - rewrite (post_tasks_accepted _ _ _ _ _ Hacc), for_files_app, Hpre. done.
  - by rewrite (for_files_length _ _ _ _ _ _ _ Hpre).
Qed.

End Handler.

(** ** The platform instance *)

Module NodeBufferFacts.
Import NodeBuffer.

Local Ltac Zify.zify_post_hook ::= Z.to_euclidean_division_equations.

(** The test vectors of RFC 4648, section 10. *)
Example encode_rfc4648 :
  encode <$> (String.list_byte_of_string
                <$> [""; "f"; "fo"; "foo"; "foob"; "fooba"; "foobar"])
  = [""; "Zg=="; "Zm8="; "Zm9v"; "Zm9vYg=="; "Zm9vYmE="; "Zm9vYmFy"].
Proof. reflexivity. Qed.

(** Missing padding, the URL-safe alphabet and white space are accepted. *)
Example decode_lenient :
  decode <$> ["Zm9vYg"; "Zm9v YmFy"; "-_-_"; "+/+/"]
  = [String.list_byte_of_string "foob"; String.list_byte_of_string "foobar";
     [xfb; xff; xbf]; [xfb; xff; xbf]].
Proof. reflexivity. Qed.

Lemma sextet_char_spec (n : N) :
  (n < 64)%N →
  Ascii.eqb (sextet_char n) "=" = false ∧ unbase64 (sextet_char n) = Some n.
Proof.
  intros Hn. rewrite <- (N2Nat.id n).
  assert (N.to_nat n < 64)%nat as Hk by lia.
  revert Hk. generalize (N.to_nat n). intros k Hk.
  do 64 (destruct k as [|k]; [by vm_compute |]). lia.
Qed.

Lemma sextets_cons (n : N) (rest : string) :
  (n < 64)%N → sextets (String (sextet_char n) rest) = n :: sextets rest.
Proof.
  intros Hn. destruct (sextet_char_spec n Hn) as (Hpad & Hun).
  simpl. by rewrite Hpad, Hun.
Qed.

Lemma byte_of_N_eq (n : N) (b : byte) : n = Byte.to_N b → byte_of_N n = b.
Proof.
  intros ->. unfold byte_of_N. pose proof (Byte.to_N_bounded b).
  rewrite N.mod_small by lia. by rewrite Byte.of_to_N.
Qed.

Lemma decode_encode_upto (k : nat) (bs : list byte) :
  (length bs ≤ k)%nat → decode (encode bs) = bs.
Proof.
  revert bs. induction k as [|k IH]; intros bs Hlen.
  { destruct bs; [done | simpl in Hlen; lia]. }
  destruct bs as [|a [|b [|c rest]]]; [done | | |].
  - pose proof (Byte.to_N_bounded a). unfold decode. cbn [encode].
    rewrite !sextets_cons by lia.
    cbn [sextets bytes_of_sextets Ascii.eqb Bool.eqb].
    f_equal. apply byte_of_N_eq. lia.
  - pose proof (Byte.to_N_bounded a). pose proof (Byte.to_N_bounded b).
    unfold decode. cbn [encode]. rewrite !sextets_cons by lia.
    cbn [sextets bytes_of_sextets Ascii.eqb Bool.eqb].
    f_equal; [| f_equal]; apply byte_of_N_eq; lia.
  - pose proof (Byte.to_N_bounded a). pose proof (Byte.to_N_bounded b).
    pose proof (Byte.to_N_bounded c).
    unfold decode. cbn [encode]. rewrite !sextets_cons by lia.
    cbn [bytes_of_sextets]. fold (decode (encode rest)).
    rewrite IH by (simpl in Hlen; lia).
    f_equal; [| f_equal; [| f_equal]]; apply byte_of_N_eq; lia.
Qed.

(** Decoding undoes encoding. *)
Lemma decode_encode (bs : list byte) : decode (encode bs) = bs.
Proof. by apply (decode_encode_upto (length bs)). Qed.

(** So a content that is the base64 encoding of some bytes, declared as
    [base64], is sent on as it came. *)
Lemma canonical_base64_unchanged (bs : list byte) :
  Buffer_toString_base64 (Buffer_from_base64 (encode bs)) = encode bs.
Proof. simpl. by rewrite decode_encode. Qed.

End NodeBufferFacts.

(** * The claims *)

(** ** Origin check *)

(** The CORS callback lets every call without an origin through; the check
    of the handler comes after it. *)
Lemma cors_allows_originless cfg : corsOptions_origin cfg None = Return true.
Proof. reflexivity. Qed.

(** C3, counterexample.  A call without [Origin] header from an address
    that is not on a non-empty allow-list is refused by the origin check and
    answered 403. *)
Lemma originless_call_refused :
  get_origin (server_call "203.0.113.7" (batch [file_spec "a.txt" "hi"])) = None
  ∧ isOriginAllowed cfg_app
      (server_call "203.0.113.7" (batch [file_spec "a.txt" "hi"])) = false
  ∧ post_tasks cfg_app
      (server_call "203.0.113.7" (batch [file_spec "a.txt" "hi"])) fresh
    = (Return (respond 403 (ErrorBody "origin not allowed")), fresh).
Proof. repeat split. Qed.

(** C3, amended.  A request without [Origin] header passes the origin check
    exactly when the allow-list is empty or holds the source address of the
    request ([req.ip], the empty string when there is none). *)
Theorem originless_call_allowed_iff (cfg : Config) (req : Request) :
  get_origin req = None →
  isOriginAllowed cfg req = true
  ↔ ALLOWED_ORIGINS cfg = [] ∨ default "" (ip req) ∈ ALLOWED_ORIGINS cfg.
Proof.
  intros Ho. unfold isOriginAllowed. rewrite Ho, origin_without_header.
  destruct (length (ALLOWED_ORIGINS cfg) =? 0)%nat eqn:E.
  - apply length_eqb_0 in E. split; [by left | done].
  - assert (ALLOWED_ORIGINS cfg ≠ []) as Hne.
    { intros E'. apply length_eqb_0 in E'. congruence. }
    rewrite orb_true_iff, !includes_true. split.
    + intros [(s & [= <-] & Hin) | (s & Hip & Hin)]; right; [done |].
      by rewrite Hip.
    + intros [? | Hin]; [done |]. left. eauto.
Qed.

Lemma originless_call_allowed_iff_witness :
  get_origin (server_call "10.0.0.5" (batch [])) = None
  ∧ (isOriginAllowed cfg_app_and_host (server_call "10.0.0.5" (batch [])) = true
     ↔ ALLOWED_ORIGINS cfg_app_and_host = []
       ∨ default "" (ip (server_call "10.0.0.5" (batch [])))
         ∈ ALLOWED_ORIGINS cfg_app_and_host).
Proof.
  split; [reflexivity |].
  apply (originless_call_allowed_iff cfg_app_and_host
           (server_call "10.0.0.5" (batch []))).
  reflexivity.
Defined.

(** The origin check of the handler alone: with a non-empty allow-list of
    non-empty entries that holds neither the declared origin nor the source
    address, it answers 403; with an empty one it accepts. *)
Lemma handler_refuses_unlisted `{Platform} `{Octokit St}
    (cfg : Config) (req : Request) (w : World St) :
  (ALLOWED_ORIGINS cfg ≠ [] →
   "" ∉ ALLOWED_ORIGINS cfg →
   (∀ o, get_origin req = Some o → o ∉ ALLOWED_ORIGINS cfg) →
   (∀ a, ip req = Some a → a ∉ ALLOWED_ORIGINS cfg) →
   post_tasks cfg req w
   = (Return (respond 403 (ErrorBody "origin not allowed")), w))
  ∧ (ALLOWED_ORIGINS cfg = [] → isOriginAllowed cfg req = true).
Proof.
  split; [| apply isOriginAllowed_empty_list].
  intros Hne Hempty Horigin Hip. apply post_tasks_rejected.
  unfold isOriginAllowed.
  destruct (length (ALLOWED_ORIGINS cfg) =? 0)%nat eqn:E.
  { apply length_eqb_0 in E. done. }
  apply orb_false_iff. split; apply includes_false; [| done].
  intros s Hs.
  destruct (get_origin req) as [o|] eqn:Eo; simpl in Hs.
  - destruct (String.eqb o "") eqn:Eq.
    + apply String.eqb_eq in Eq. subst o.
      destruct (ip req) as [a|] eqn:Ea; simpl in Hs.
      * destruct (String.eqb a "") eqn:Eqa; injection Hs as <-; [done |].
        by apply Hip.
      * by injection Hs as <-.
    + simpl in Hs. rewrite Eq in Hs. injection Hs as <-. by apply Horigin.
  - destruct (ip req) as [a|] eqn:Ea; simpl in Hs.
    + destruct (String.eqb a "") eqn:Eqa; injection Hs as <-; [done |].
      by apply Hip.
    + by injection Hs as <-.
Qed.

(** C6, counterexample.  The allow-list is non-empty and the declared
    origin of the request is not on it.  The CORS callback refuses the
    origin and the error is left to Express: the route handler, the only
    place that answers 403 [origin not allowed], is not run. *)
Lemma declared_unlisted_origin_not_answered_403 :
  ALLOWED_ORIGINS cfg_app ≠ []
  ∧ ("https://evil.example" ∉ ALLOWED_ORIGINS cfg_app)
  ∧ app_post_tasks cfg_app
      (browser_call "https://evil.example" "203.0.113.7"
         (batch [file_spec "a.txt" "hi"])) fresh
    = (PassedToExpress (Error.make "Error" "Not allowed by CORS"), fresh)
  ∧ app_post_tasks cfg_app
      (browser_call "https://evil.example" "203.0.113.7"
         (batch [file_spec "a.txt" "hi"])) fresh
    ≠ (Answered (respond 403 (ErrorBody "origin not allowed")), fresh).
Proof.
  split; [done |]. split; [| split; [reflexivity | discriminate]].
  simpl. rewrite elem_of_cons, elem_of_nil. intros [? | []]; discriminate.
Qed.

(** C6, amended.  With a non-empty allow-list, a request whose declared
    origin is not on it is refused by the CORS callback before the route
    handler runs, the error being left to Express, and a request without a
    declared origin whose source address is not on it is answered 403
    [origin not allowed] by the handler; in both cases the world is
    untouched: no call reaches the remote service.  With an empty allow-list
    the CORS callback and the origin check of the handler accept every
    request, with or without a declared origin.  The entries of the
    allow-list are non-empty strings ([ALLOWED_ORIGINS_of_env_entries]). *)
Theorem unlisted_request_turned_away `{Platform} `{Octokit St}
    (cfg : Config) (req : Request) (w : World St) :
  (ALLOWED_ORIGINS cfg ≠ [] →
   ∀ o, get_origin req = Some o → o ≠ "" → o ∉ ALLOWED_ORIGINS cfg →
        app_post_tasks cfg req w
        = (PassedToExpress (Error.make "Error" "Not allowed by CORS"), w))
  ∧ (ALLOWED_ORIGINS cfg ≠ [] →
     "" ∉ ALLOWED_ORIGINS cfg →
     falsy (get_origin req) = true →
     (∀ a, ip req = Some a → a ∉ ALLOWED_ORIGINS cfg) →
     app_post_tasks cfg req w
     = (Answered (respond 403 (ErrorBody "origin not allowed")), w))
  ∧ (ALLOWED_ORIGINS cfg = [] →
     corsOptions_origin cfg (get_origin req) = Return true
     ∧ isOriginAllowed cfg req = true).
Proof.
  split; [| split].
  - intros Hne o Ho Hoe Hout. unfold app_post_tasks, corsOptions_origin.
    rewrite Ho. simpl.
    destruct (String.eqb o "") eqn:E; [by apply String.eqb_eq in E |].
    destruct (length (ALLOWED_ORIGINS cfg) =? 0)%nat eqn:El.
    { by apply length_eqb_0 in El. }
    simpl. by rewrite bool_decide_eq_false_2.
  - intros Hne Hempty Hfalsy Hip. unfold app_post_tasks.
    assert (corsOptions_origin cfg (get_origin req) = Return true) as ->.
    { unfold corsOptions_origin. destruct (get_origin req) as [o|]; [| done].
      simpl in *. by rewrite Hfalsy. }
    destruct (handler_refuses_unlisted cfg req w) as (Hrefuse & _).
    rewrite Hrefuse; try done.
    intros o Ho. rewrite Ho in Hfalsy. simpl in Hfalsy.
    apply String.eqb_eq in Hfalsy. by subst o.
  - intros Hnil. split; [| by apply isOriginAllowed_empty_list].
    unfold corsOptions_origin. rewrite Hnil. simpl.
    by destruct (or_string (get_origin req) None).
Qed.

Lemma unlisted_request_turned_away_witness :
  app_post_tasks cfg_app
    (browser_call "https://evil.example" "203.0.113.7"
       (batch [file_spec "a.txt" "hi"])) fresh
  = (PassedToExpress (Error.make "Error" "Not allowed by CORS"), fresh)
  ∧ app_post_tasks cfg_app
      (server_call "203.0.113.7" (batch [file_spec "a.txt" "hi"])) fresh
    = (Answered (respond 403 (ErrorBody "origin not allowed")), fresh)
  ∧ corsOptions_origin cfg_open (Some "https://evil.example") = Return true
  ∧ isOriginAllowed cfg_open
      (browser_call "https://evil.example" "203.0.113.7" (batch [])) = true.
Proof.
  split; [| split].
  - refine (proj1 (unlisted_request_turned_away cfg_app
              (browser_call "https://evil.example" "203.0.113.7"
                 (batch [file_spec "a.txt" "hi"])) fresh)
              _ "https://evil.example" _ _ _).
    + discriminate.
    + reflexivity.
    + discriminate.
    + simpl. rewrite elem_of_cons, elem_of_nil. intros [? | []]; discriminate.
  - refine (proj1 (proj2 (unlisted_request_turned_away cfg_app
              (server_call "203.0.113.7" (batch [file_spec "a.txt" "hi"])) fresh))
              _ _ _ _).
    + discriminate.
    + simpl. rewrite elem_of_cons, elem_of_nil. intros [? | []]; discriminate.
    + reflexivity.
    + intros a [= <-]. simpl. rewrite elem_of_cons, elem_of_nil.
      intros [? | []]; discriminate.
  - refine (proj2 (proj2 (unlisted_request_turned_away cfg_open
              (browser_call "https://evil.example" "203.0.113.7" (batch []))
              fresh)) _).
    reflexivity.
Defined.



(** ** Validation of the body *)

(** C7, at a request with an allowed origin and no parsed body: [req.body]
    is [undefined], so there is no [files].  The destructuring of line 69
    comes before the check of line 70 and throws; the outer [catch] answers
    500 with the message of the [TypeError], in place of 400 [files array
    required].  Nothing is sent to the remote service. *)
Theorem absent_body_not_answered_400 :
  isOriginAllowed cfg_open (server_call "10.0.0.5" VUndefined) = true
  ∧ Array_isArray (prop (body (server_call "10.0.0.5" VUndefined)) "files") = false
  ∧ post_tasks cfg_open (server_call "10.0.0.5" VUndefined) fresh
    = (Return (respond 500
                 (ErrorBody
                    "Cannot destructure property 'files' of 'req.body' as it is undefined.")),
       fresh).
Proof. repeat split. Qed.

(** Where the body is a parsed one, the check of [files] does what it is
    there for: an origin-allowed request whose body has no [files], an
    empty [files] or a [files] that is no array is answered 400 [files
    array required], and the world is untouched. *)
Theorem files_array_required `{Platform} `{Octokit St}
    (cfg : Config) (req : Request) (w : World St) :
  isOriginAllowed cfg req = true →
  body req ≠ VUndefined → body req ≠ VNull →
  Array_isArray (prop (body req) "files") = false
  ∨ elements (prop (body req) "files") = [] →
  post_tasks cfg req w
  = (Return (respond 400 (ErrorBody "files array required")), w).
Proof.
  intros Ho Hu Hn Hfiles.
  unfold post_tasks, try_catch, bind, eval. rewrite Ho. simpl.
  assert (∃ cm br, destructure_body cfg (body req)
                   = Return (prop (body req) "files", cm, br)) as (cm & br & ->).
  { destruct (body req); simpl; try done; unfold prop; simpl; eauto. }
  destruct Hfiles as [-> | ->]; [done |].
  by rewrite orb_true_r.
Qed.

Lemma files_array_required_witness :
  post_tasks cfg_open (server_call "10.0.0.5" (VObj [("files", VArr [])])) fresh
  = (Return (respond 400 (ErrorBody "files array required")), fresh)
  ∧ post_tasks cfg_open
      (server_call "10.0.0.5" (VObj [("commitMessage", VStr "none")])) fresh
    = (Return (respond 400 (ErrorBody "files array required")), fresh)
  ∧ post_tasks cfg_open
      (server_call "10.0.0.5" (VObj [("files", VStr "a.txt")])) fresh
    = (Return (respond 400 (ErrorBody "files array required")), fresh).
Proof.
  split; [| split].
  - apply (files_array_required cfg_open
             (server_call "10.0.0.5" (VObj [("files", VArr [])])) fresh);
      [reflexivity | discriminate | discriminate | right; reflexivity].
  - apply (files_array_required cfg_open
             (server_call "10.0.0.5" (VObj [("commitMessage", VStr "none")])) fresh);
      [reflexivity | discriminate | discriminate | left; reflexivity].
  - apply (files_array_required cfg_open
             (server_call "10.0.0.5" (VObj [("files", VStr "a.txt")])) fresh);
      [reflexivity | discriminate | discriminate | left; reflexivity].
Defined.

(** ** The entries of a batch *)

Section Entries.
Context `{Platform} `{Octokit St}.
Variable cfg : Config.
Implicit Types (w : World St) (f p c : value) (rs : list FileResult.t)
  (pre post : list value).

(** A valid entry whose content [Buffer.from] takes: one read, one write
    with the marker the read left, one result pushed. *)
Lemma loop_body_writes commitMessage branch f p c buf rs w :
  invalid_file f = Return false →
  get f "path" = Return p → get f "content" = Return c →
  Buffer_from c (encoding_of (prop f "encoding")) = Return buf →
  let read := repos_getContent (read_params cfg p branch) (remote w) in
  let pw := write_params cfg p commitMessage branch
              (Buffer_toString_base64 buf) (revision_marker read.1) in
  let write := repos_createOrUpdateFileContents pw read.2 in
  loop_body cfg commitMessage branch f rs w
  = (Return (rs ++ [write_result p write.1]),
     mkWorld write.2
       (calls w ++ [CallGetContent (read_params cfg p branch);
                    CallCreateOrUpdate pw])).
Proof.
  intros Hinv Hp Hc Hbuf. simpl.
  rewrite (loop_body_valid cfg _ _ _ p c) by done.
  rewrite Hbuf, write_file_run, read_sha_run. simpl.
  by rewrite <- app_assoc.
Qed.

(** Where the rest of the loop ends, a result pushed at the position of
    an entry is in the results at that position. *)
Lemma pushed_result_reported commitMessage branch pre post rs r w res w' :
  length rs = length pre →
  for_files cfg commitMessage branch post (rs ++ [r]) w = (Return res, w') →
  res !! length pre = Some r
  ∧ length res = length (pre ++ VNull :: post).
Proof.
  intros Hlen Hrun. split.
  - eapply for_files_keeps; [exact Hrun |].
    rewrite <- Hlen. by apply list_lookup_middle.
  - erewrite for_files_length by exact Hrun. rewrite !length_app. simpl. lia.
Qed.

End Entries.

(** An object without a [path], or without a [content], fails the
    validation. *)
Lemma missing_field_invalid (props : list (string * value)) :
  own_property "path" props = VUndefined
  ∨ own_property "content" props = VUndefined →
  invalid_file (VObj props) = Return true.
Proof.
  unfold invalid_file. simpl. intros [-> | ->]; [done |].
  by destruct (truthy _).
Qed.

(** C5.  In an accepted batch, when the loop comes to an entry whose [path]
    is missing (falsy) or whose [content] is undefined, the iteration pushes
    [{path: f.path || null, status: "skipped", reason: "invalid file
    object"}] and leaves the world as it was, so neither a read nor a write
    is issued for the entry; the handler goes on with the next entry, and
    where the loop ends the result sits at the position of the entry. *)
Theorem invalid_entry_skipped `{Platform} `{Octokit St}
    (cfg : Config) (req : Request) (commitMessage branch : value)
    (pre : list value) (f : value) (post : list value)
    (rs : list FileResult.t) (w0 w : World St) :
  accepted cfg req (pre ++ f :: post) commitMessage branch →
  for_files cfg commitMessage branch pre [] w0 = (Return rs, w) →
  invalid_file f = Return true →
  let r := FileResult.make (js_or (prop f "path") VNull) "skipped"
             (Some "invalid file object") None None in
  loop_body cfg commitMessage branch f rs w = (Return (rs ++ [r]), w)
  ∧ post_tasks cfg req w0
    = conclude (for_files cfg commitMessage branch post (rs ++ [r]) w)
  ∧ ∀ res w',
      for_files cfg commitMessage branch post (rs ++ [r]) w = (Return res, w') →
      res !! length pre = Some r
      ∧ length res = length (pre ++ f :: post).
Proof.
  intros Hacc Hpre Hinv r.
  destruct (invalid_file_true f Hinv) as (p & Hp & _).
  assert (prop f "path" = p) as Hprop by (unfold prop; by rewrite Hp).
  assert (loop_body cfg commitMessage branch f rs w = (Return (rs ++ [r]), w)) as Hbody.
  { rewrite (loop_body_invalid cfg _ _ _ p) by done. subst r. by rewrite Hprop. }
  destruct (post_tasks_reaches cfg _ _ _ _ _ _ _ _ _ Hacc Hpre) as (Hrun & Hlen).
  split; [done |]. split; [by rewrite Hrun, Hbody |].
  intros res w' Hrest.
  destruct (pushed_result_reported cfg _ _ pre post _ _ _ _ _ Hlen Hrest) as (? & Hl).
  split; [done |]. rewrite Hl, !length_app. done.
Qed.

Lemma invalid_entry_skipped_witness :
  for_files cfg_open default_message main [file_spec "a.txt" "hi"] [] fresh
  = (Return [ok_a], after_a)
  ∧ invalid_file (VObj [("path", VStr "b.txt")]) = Return true
  ∧ post_tasks cfg_open
      (server_call "10.0.0.5"
         (batch [file_spec "a.txt" "hi"; VObj [("path", VStr "b.txt")];
                 file_spec "c.txt" "x"])) fresh
    = conclude
        (for_files cfg_open default_message main [file_spec "c.txt" "x"]
           ([ok_a] ++ [FileResult.make (VStr "b.txt") "skipped"
                         (Some "invalid file object") None None])
           after_a).
Proof.
  split; [by vm_compute |]. split; [reflexivity |].
  apply (invalid_entry_skipped cfg_open
           (server_call "10.0.0.5"
              (batch [file_spec "a.txt" "hi"; VObj [("path", VStr "b.txt")];
                      file_spec "c.txt" "x"]))
           default_message main
           [file_spec "a.txt" "hi"] (VObj [("path", VStr "b.txt")])
           [file_spec "c.txt" "x"] [ok_a] fresh after_a).
  - repeat split. discriminate.
  - by vm_compute.
  - reflexivity.
Defined.

(** C9.  In an accepted batch, when the loop comes to a valid entry and the
    write call for it is rejected with an error [err], the iteration pushes
    [{path, status: "error", message: err.message}] and does not throw; the
    handler goes on with the entries after it, and where the loop ends the
    result sits at the position of the entry among one result per file. *)
Theorem write_failure_reported `{Platform} `{Octokit St}
    (cfg : Config) (req : Request) (commitMessage branch : value)
    (pre : list value) (f : value) (post : list value)
    (rs : list FileResult.t) (w0 w : World St)
    (buf : list byte) (err : Error.t) (s2 : St) :
  accepted cfg req (pre ++ f :: post) commitMessage branch →
  for_files cfg commitMessage branch pre [] w0 = (Return rs, w) →
  invalid_file f = Return false →
  Buffer_from (prop f "content") (encoding_of (prop f "encoding")) = Return buf →
  let p := prop f "path" in
  let read := repos_getContent (read_params cfg p branch) (remote w) in
  let pw := write_params cfg p commitMessage branch
              (Buffer_toString_base64 buf) (revision_marker read.1) in
  repos_createOrUpdateFileContents pw read.2 = (Throw err, s2) →
  let r := FileResult.make p "error" None (Some (Error.message err)) None in
  let w2 := mkWorld s2 (calls w ++ [CallGetContent (read_params cfg p branch);
                                    CallCreateOrUpdate pw]) in
  loop_body cfg commitMessage branch f rs w = (Return (rs ++ [r]), w2)
  ∧ post_tasks cfg req w0
    = conclude (for_files cfg commitMessage branch post (rs ++ [r]) w2)
  ∧ ∀ res w',
      for_files cfg commitMessage branch post (rs ++ [r]) w2 = (Return res, w') →
      res !! length pre = Some r
      ∧ length res = length (pre ++ f :: post).
Proof.
  intros Hacc Hpre Hinv Hbuf p read pw Hwrite r w2.
  destruct (invalid_file_false f Hinv) as (p' & c & Hp & _ & Hc & _).
  assert (p' = p) as -> by (subst p; unfold prop; by rewrite Hp).
  assert (prop f "content" = c) as Hpc by (unfold prop; by rewrite Hc).
  rewrite Hpc in Hbuf.
  assert (loop_body cfg commitMessage branch f rs w = (Return (rs ++ [r]), w2)) as Hbody.
  { rewrite (loop_body_writes cfg _ _ _ p c buf) by done.
    fold read. fold pw. by rewrite Hwrite. }
  destruct (post_tasks_reaches cfg _ _ _ _ _ _ _ _ _ Hacc Hpre) as (Hrun & Hlen).
  split; [done |]. split; [by rewrite Hrun, Hbody |].
  intros res w' Hrest.
  destruct (pushed_result_reported cfg _ _ pre post _ _ _ _ _ Hlen Hrest) as (? & Hl).
  split; [done |]. rewrite Hl, !length_app. done.
Qed.

Lemma write_failure_reported_witness :
  post_tasks cfg_open
    (server_call "10.0.0.5" (batch [file_spec "/b" "x"; file_spec "a.txt" "hi"]))
    fresh
  = conclude
      (for_files cfg_open default_message main [file_spec "a.txt" "hi"]
         ([] ++ [FileResult.make (VStr "/b") "error" None
                   (Some "path cannot start with a slash") None])
         (mkWorld MemoryRepo.empty
            ([] ++ [CallGetContent (GetContent.make "acme" "site" (VStr "/b") main);
                    CallCreateOrUpdate
                      (CreateOrUpdate.make "acme" "site" (VStr "/b")
                         default_message "eA==" main VUndefined)]))).
Proof.
  refine (proj1 (proj2 (write_failure_reported cfg_open
           (server_call "10.0.0.5"
              (batch [file_spec "/b" "x"; file_spec "a.txt" "hi"]))
           default_message main [] (file_spec "/b" "x") [file_spec "a.txt" "hi"]
           [] fresh fresh ["x"%byte]
           (MemoryRepo.HttpError "path cannot start with a slash")
           MemoryRepo.empty _ _ _ _ _))).
  - repeat split. discriminate.
  - reflexivity.
  - reflexivity.
  - reflexivity.
  - reflexivity.
Defined.

(** C4.  In an accepted batch, when the loop comes to a valid entry whose
    content is decoded, the write call is issued right after the read of
    [path] on [branch] and carries in [sha] what that read left: nothing
    ([undefined], a create) when the read was rejected, the file missing
    included, or resolved without a [data.sha]; the [data.sha] of the
    response when it resolved with one (a conditional update).  The result
    pushed is a function of the outcome of the write alone: a rejected read
    is not reported and does not make the iteration throw. *)
Theorem write_carries_read_marker `{Platform} `{Octokit St}
    (cfg : Config) (req : Request) (commitMessage branch : value)
    (pre : list value) (f : value) (post : list value)
    (rs : list FileResult.t) (w0 w : World St) (buf : list byte) :
  accepted cfg req (pre ++ f :: post) commitMessage branch →
  for_files cfg commitMessage branch pre [] w0 = (Return rs, w) →
  invalid_file f = Return false →
  Buffer_from (prop f "content") (encoding_of (prop f "encoding")) = Return buf →
  let p := prop f "path" in
  let read := repos_getContent (GetContent.make (OWNER cfg) (REPO cfg) p branch)
                (remote w) in
  let sha := revision_marker read.1 in
  let pw := CreateOrUpdate.make (OWNER cfg) (REPO cfg) p commitMessage
              (Buffer_toString_base64 buf) branch sha in
  let write := repos_createOrUpdateFileContents pw read.2 in
  let w2 := mkWorld write.2
              (calls w ++ [CallGetContent
                             (GetContent.make (OWNER cfg) (REPO cfg) p branch);
                           CallCreateOrUpdate pw]) in
  (∀ e, read.1 = Throw e → sha = VUndefined)
  ∧ (∀ getRes, read.1 = Return getRes →
       sha = if truthy (prop (prop getRes "data") "sha")
             then prop (prop getRes "data") "sha" else VUndefined)
  ∧ loop_body cfg commitMessage branch f rs w
    = (Return (rs ++ [write_result p write.1]), w2)
  ∧ post_tasks cfg req w0
    = conclude (for_files cfg commitMessage branch post
                  (rs ++ [write_result p write.1]) w2).
Proof.
  intros Hacc Hpre Hinv Hbuf p read sha pw write w2.
  destruct (invalid_file_false f Hinv) as (p' & c & Hp & _ & Hc & _).
  assert (p' = p) as -> by (subst p; unfold prop; by rewrite Hp).
  assert (prop f "content" = c) as Hpc by (unfold prop; by rewrite Hc).
  rewrite Hpc in Hbuf.
  pose proof (loop_body_writes cfg commitMessage branch f p c buf rs w
                Hinv Hp Hc Hbuf) as Hbody.
  simpl in Hbody. unfold read_params, write_params in Hbody.
  destruct (post_tasks_reaches cfg _ _ _ _ _ _ _ _ _ Hacc Hpre) as (Hrun & _).
  split; [by subst sha; intros e -> |]. split; [by subst sha; intros getRes -> |].
  split; [done |]. by rewrite Hrun, Hbody.
Qed.

Lemma write_carries_read_marker_witness :
  (repos_getContent (GetContent.make "acme" "site" (VStr "a.txt") main)
     (remote after_a)).1
  = Return (MemoryRepo.file_response "blob:aGk=")
  ∧ loop_body cfg_open default_message main file_a_again [ok_a] after_a
    = (Return ([ok_a] ++ [FileResult.make (VStr "a.txt") "ok" None None
                            (Some (VStr "commit:2"))]),
       mkWorld
         (MemoryRepo.make (<[("main", "a.txt") := "blob:aG8="]>
                             (<[("main", "a.txt") := "blob:aGk="]> ∅)) 2)
         (calls after_a
          ++ [CallGetContent (GetContent.make "acme" "site" (VStr "a.txt") main);
              CallCreateOrUpdate
                (CreateOrUpdate.make "acme" "site" (VStr "a.txt") default_message
                   "aG8=" main (VStr "blob:aGk="))])).
Proof.
  split; [reflexivity |].
  refine (proj1 (proj2 (proj2 (write_carries_read_marker cfg_open
           (server_call "10.0.0.5" (batch [file_spec "a.txt" "hi"; file_a_again]))
           default_message main [file_spec "a.txt" "hi"] file_a_again []
           [ok_a] fresh after_a ["h"%byte; "o"%byte] _ _ _ _)))).
  - repeat split. discriminate.
  - by vm_compute.
  - reflexivity.
  - reflexivity.
Defined.

(** C8.  In an accepted batch, when the loop comes to a valid entry whose
    content is the string [s], the [content] of the write call is the
    base64 encoding of the bytes of [s]: the base64-decoded bytes when
    [encoding] is [base64], the UTF-8 bytes for any other [encoding], an
    absent one included. *)
Theorem content_sent_in_base64 `{Platform} `{Octokit St}
    (cfg : Config) (req : Request) (commitMessage branch : value)
    (pre : list value) (f : value) (post : list value)
    (rs : list FileResult.t) (w0 w : World St) (s : string) :
  accepted cfg req (pre ++ f :: post) commitMessage branch →
  for_files cfg commitMessage branch pre [] w0 = (Return rs, w) →
  invalid_file f = Return false →
  prop f "content" = VStr s →
  let p := prop f "path" in
  let bytes := if strict_eq_string (prop f "encoding") "base64"
               then Buffer_from_base64 s else Buffer_from_utf8 s in
  let read := repos_getContent (GetContent.make (OWNER cfg) (REPO cfg) p branch)
                (remote w) in
  let pw := CreateOrUpdate.make (OWNER cfg) (REPO cfg) p commitMessage
              (Buffer_toString_base64 bytes) branch (revision_marker read.1) in
  let write := repos_createOrUpdateFileContents pw read.2 in
  let w2 := mkWorld write.2
              (calls w ++ [CallGetContent
                             (GetContent.make (OWNER cfg) (REPO cfg) p branch);
                           CallCreateOrUpdate pw]) in
  (prop f "encoding" = VStr "base64" → bytes = Buffer_from_base64 s)
  ∧ (prop f "encoding" ≠ VStr "base64" → bytes = Buffer_from_utf8 s)
  ∧ loop_body cfg commitMessage branch f rs w
    = (Return (rs ++ [write_result p write.1]), w2)
  ∧ post_tasks cfg req w0
    = conclude (for_files cfg commitMessage branch post
                  (rs ++ [write_result p write.1]) w2).
Proof.
  intros Hacc Hpre Hinv Hs p bytes read pw write w2.
  destruct (invalid_file_false f Hinv) as (p' & c & Hp & _ & Hc & _).
  assert (p' = p) as -> by (subst p; unfold prop; by rewrite Hp).
  assert (c = VStr s) as -> by (unfold prop in Hs; by rewrite Hc in Hs).
  assert (Buffer_from (VStr s) (encoding_of (prop f "encoding")) = Return bytes)
    as Hbuf.
  { subst bytes. unfold encoding_of. simpl. by destruct (strict_eq_string _ _). }
  pose proof (loop_body_writes cfg commitMessage branch f p (VStr s) bytes rs w
                Hinv Hp Hc Hbuf) as Hbody.
  simpl in Hbody. unfold read_params, write_params in Hbody.
  destruct (post_tasks_reaches cfg _ _ _ _ _ _ _ _ _ Hacc Hpre) as (Hrun & _).
  split; [| split; [| split; [exact Hbody | by rewrite Hrun, Hbody]]].
  - intros E. subst bytes. by rewrite E.
  - intros E. subst bytes.
    destruct (prop f "encoding") as [| | | |e| |]; simpl; try done.
    destruct (String.eqb e "base64") eqn:Eq; [| done].
    apply String.eqb_eq in Eq. by subst e.
Qed.

Lemma content_sent_in_base64_witness :
  loop_body cfg_open default_message main file_b64 [] fresh
  = (Return ([] ++ [FileResult.make (VStr "logo.bin") "ok" None None
                      (Some (VStr "commit:1"))]),
     mkWorld
       (MemoryRepo.make (<[("main", "logo.bin") := "blob:aGk="]> ∅) 1)
       (calls fresh
        ++ [CallGetContent (GetContent.make "acme" "site" (VStr "logo.bin") main);
            CallCreateOrUpdate
              (CreateOrUpdate.make "acme" "site" (VStr "logo.bin") default_message
                 "aGk=" main VUndefined)])).
Proof.
  refine (proj1 (proj2 (proj2 (content_sent_in_base64 cfg_open
           (server_call "10.0.0.5" (batch [file_b64]))
           default_message main [] file_b64 [] [] fresh fresh "aGk" _ _ _ _)))).
  - repeat split. discriminate.
  - reflexivity.
  - reflexivity.
  - reflexivity.
Defined.

(** ** Whole batches *)

(** The entries of the documented body schema, objects whose [content] is a
    string when there is one, are of that kind. *)
Lemma file_object_processable `{Platform} (props : list (string * value)) :
  own_property "content" props = VUndefined
  ∨ (∃ s, own_property "content" props = VStr s) →
  processable (VObj props).
Proof.
  intros Hc. unfold processable, invalid_file. simpl.
  destruct (truthy (own_property "path" props)); simpl; [| by left].
  unfold prop. simpl.
  destruct Hc as [-> | (s & ->)]; simpl; [by left |].
  right. split; [done |]. eauto.
Qed.

Section Batches.
Context `{Platform} `{Octokit St}.
Variable cfg : Config.

Lemma loop_body_processable commitMessage branch f rs (w : World St) :
  processable f →
  ∃ r w', loop_body cfg commitMessage branch f rs w = (Return (rs ++ [r]), w')
          ∧ (FileResult.status r = "skipped" ↔ invalid_file f = Return true).
Proof.
  intros [Hinv | (Hinv & buf & Hbuf)].
  - destruct (invalid_file_true f Hinv) as (p & Hp & _).
    rewrite (loop_body_invalid cfg _ _ _ p) by done.
    eexists _, _. split; [done |]. done.
  - destruct (invalid_file_false f Hinv) as (p & c & Hp & _ & Hc & _).
    assert (prop f "content" = c) as Hpc by (unfold prop; by rewrite Hc).
    rewrite Hpc in Hbuf.
    rewrite (loop_body_writes cfg _ _ _ p c buf) by done.
    eexists _, _. split; [done |].
    rewrite Hinv. unfold write_result.
    repeat case_match; simpl; split; intros; discriminate.
Qed.

(** Over processable entries the loop ends, with one result per entry in
    the order of the entries; the skipped ones are those of the entries that
    fail the validation. *)
Lemma for_files_processable commitMessage branch fs rs (w : World St) :
  Forall processable fs →
  ∃ new w',
    for_files cfg commitMessage branch fs rs w = (Return (rs ++ new), w')
    ∧ Forall2 (λ f r, FileResult.path r = js_or (prop f "path") VNull
                      ∧ (FileResult.status r = "skipped"
                         ↔ invalid_file f = Return true)) fs new.
Proof.
  intros Hfs. revert rs w.
  induction Hfs as [|f fs Hf _ IH]; intros rs w; simpl.
  - exists [], w. by rewrite app_nil_r.
  - destruct (loop_body_processable commitMessage branch f rs w Hf)
      as (r & w1 & Hbody & Hskip).
    unfold bind. rewrite Hbody.
    destruct (IH (rs ++ [r]) w1) as (new & w' & Hrun & Hnew).
    exists (r :: new), w'. rewrite Hrun, <- app_assoc. split; [done |].
    constructor; [| done]. split; [| done].
    destruct (loop_body_pushes_one cfg _ _ _ _ _ _ _ Hbody) as (r' & Heq & Hpath).
    apply app_inj_tail in Heq as [_ <-]. done.
Qed.

(** So a batch of processable entries is answered 200 with these results. *)
Lemma post_tasks_processable req fs commitMessage branch (w : World St) :
  accepted cfg req fs commitMessage branch →
  Forall processable fs →
  ∃ results w',
    post_tasks cfg req w = (Return (respond 200 (ResultsBody true results)), w')
    ∧ length results = length fs
    ∧ Forall2 (λ f r, FileResult.path r = js_or (prop f "path") VNull
                      ∧ (FileResult.status r = "skipped"
                         ↔ invalid_file f = Return true)) fs results.
Proof.
  intros Hacc Hfs.
  destruct (for_files_processable commitMessage branch fs [] w Hfs)
    as (new & w' & Hrun & Hnew).
  exists new, w'. rewrite (post_tasks_accepted cfg _ _ _ _ _ Hacc), Hrun.
  split; [done |]. split; [| done]. by rewrite (Forall2_length _ _ _ Hnew).
Qed.

End Batches.

(** C1, at the batch [{files: [{path: "a.txt", content: null}]}].  The origin
    is allowed and [files] is a non-empty array; the entry passes the
    validation of line 76, since [typeof null] is not ['undefined'];
    [Buffer.from(null, 'utf8')] at line 98 throws outside both inner [try]
    blocks, and the answer is 500 with an error body in place of
    [{ok: true, results}]. *)
Theorem null_content_answered_500 :
  accepted cfg_open (server_call "10.0.0.5" (batch [null_content "a.txt"]))
    [null_content "a.txt"] default_message main
  ∧ invalid_file (null_content "a.txt") = Return false
  ∧ post_tasks cfg_open (server_call "10.0.0.5" (batch [null_content "a.txt"])) fresh
    = (Return (respond 500 (ErrorBody (Error.message (ERR_INVALID_ARG_TYPE VNull)))),
       mkWorld MemoryRepo.empty
         [CallGetContent (GetContent.make "acme" "site" (VStr "a.txt") main)]).
Proof. repeat split. discriminate. Qed.

(** C2, counterexample.  The read of [a.txt] is rejected with a server
    error while the file is handled; the error is swallowed and the result
    of the file is [{path, status: "ok", commitSha}], with no trace of it. *)
Lemma read_error_not_reported :
  (repos_getContent (GetContent.make "acme" "site" (VStr "a.txt") main)
     (remote flaky)).1
  = Throw (MemoryRepo.HttpError "Server Error")
  ∧ post_tasks cfg_open (server_call "10.0.0.5" (batch [file_spec "a.txt" "hi"]))
      flaky
    = (Return (respond 200
                 (ResultsBody true
                    [FileResult.make (VStr "a.txt") "ok" None None
                       (Some (VStr "commit:1"))])),
       mkWorld []
         [CallGetContent (GetContent.make "acme" "site" (VStr "a.txt") main);
          CallCreateOrUpdate
            (CreateOrUpdate.make "acme" "site" (VStr "a.txt") default_message
               "aGk=" main VUndefined)]).
Proof. split; reflexivity. Qed.

(** C2, amended.  In an accepted batch, when the loop comes to a valid entry
    whose content is decoded, no error of the read call or of the write call
    is thrown upward: whatever the two calls answer, the iteration ends with
    one result pushed and the handler goes on with the next entry.  An error
    of the read leaves no trace in the result, which is a function of the
    outcome of the write alone; an error [err] of the write is reported as
    [{path, status: "error", message: err.message}].  Where the rest of the
    loop ends, the answer is 200 with the results. *)
Theorem remote_errors_contained `{Platform} `{Octokit St}
    (cfg : Config) (req : Request) (commitMessage branch : value)
    (pre : list value) (f : value) (post : list value)
    (rs : list FileResult.t) (w0 w : World St) (buf : list byte) :
  accepted cfg req (pre ++ f :: post) commitMessage branch →
  for_files cfg commitMessage branch pre [] w0 = (Return rs, w) →
  invalid_file f = Return false →
  Buffer_from (prop f "content") (encoding_of (prop f "encoding")) = Return buf →
  let p := prop f "path" in
  let read := repos_getContent (read_params cfg p branch) (remote w) in
  let pw := write_params cfg p commitMessage branch
              (Buffer_toString_base64 buf) (revision_marker read.1) in
  let write := repos_createOrUpdateFileContents pw read.2 in
  let r := write_result p write.1 in
  let w2 := mkWorld write.2
              (calls w ++ [CallGetContent (read_params cfg p branch);
                           CallCreateOrUpdate pw]) in
  loop_body cfg commitMessage branch f rs w = (Return (rs ++ [r]), w2)
  ∧ (∀ err, write.1 = Throw err →
       r = FileResult.make p "error" None (Some (Error.message err)) None)
  ∧ post_tasks cfg req w0
    = conclude (for_files cfg commitMessage branch post (rs ++ [r]) w2)
  ∧ ∀ res w',
      for_files cfg commitMessage branch post (rs ++ [r]) w2 = (Return res, w') →
      post_tasks cfg req w0 = (Return (respond 200 (ResultsBody true res)), w')
      ∧ res !! length pre = Some r.
Proof.
  intros Hacc Hpre Hinv Hbuf p read pw write r w2.
  destruct (invalid_file_false f Hinv) as (p' & c & Hp & _ & Hc & _).
  assert (p' = p) as -> by (subst p; unfold prop; by rewrite Hp).
  assert (prop f "content" = c) as Hpc by (unfold prop; by rewrite Hc).
  rewrite Hpc in Hbuf.
  pose proof (loop_body_writes cfg commitMessage branch f p c buf rs w
                Hinv Hp Hc Hbuf) as Hbody.
  destruct (post_tasks_reaches cfg _ _ _ _ _ _ _ _ _ Hacc Hpre) as (Hrun & Hlen).
  split; [done |]. split; [by subst r; intros err -> |].
  split; [by rewrite Hrun, Hbody |].
  intros res w' Hrest. split.
  - transitivity (conclude (for_files cfg commitMessage branch post (rs ++ [r]) w2));
      [by rewrite Hrun, Hbody | by rewrite Hrest].
  - by destruct (pushed_result_reported cfg _ _ pre post _ _ _ _ _ Hlen Hrest).
Qed.

Lemma remote_errors_contained_witness :
  loop_body cfg_open default_message main (file_spec "a.txt" "hi") [] flaky
  = (Return ([] ++ [FileResult.make (VStr "a.txt") "ok" None None
                      (Some (VStr "commit:1"))]),
     mkWorld []
       (calls flaky
        ++ [CallGetContent (GetContent.make "acme" "site" (VStr "a.txt") main);
            CallCreateOrUpdate
              (CreateOrUpdate.make "acme" "site" (VStr "a.txt") default_message
                 "aGk=" main VUndefined)])).
Proof.
  refine (proj1 (remote_errors_contained cfg_open
           (server_call "10.0.0.5" (batch [file_spec "a.txt" "hi"]))
           default_message main [] (file_spec "a.txt" "hi") [] [] flaky flaky
           ["h"%byte; "i"%byte] _ _ _ _)).
  - repeat split. discriminate.
  - reflexivity.
  - reflexivity.
  - reflexivity.
Defined.

(** The case the amended C2 leaves out: the batch of [a.txt] with content
    [hi], [b.txt] with content the number 5, and [c.txt] with content [x].
    [a.txt] is committed; the handling of [b.txt] throws at line 98 and the
    throw reaches the outer [catch]: the answer is 500, no result is
    reported for any of the three files, and [c.txt] is never read or
    written. *)
Lemma decode_failure_aborts_batch :
  post_tasks cfg_open
    (server_call "10.0.0.5"
       (batch [file_spec "a.txt" "hi"; number_content "b.txt" 5;
               file_spec "c.txt" "x"])) fresh
  = (Return (respond 500
               (ErrorBody (Error.message (ERR_INVALID_ARG_TYPE (VNum 5))))),
     mkWorld (remote after_a)
       (calls after_a
        ++ [CallGetContent (GetContent.make "acme" "site" (VStr "b.txt") main)])).
Proof. by vm_compute. Qed.


(** * Further properties *)

(** ** The allow-list of the environment (line 18) *)

Section AllowList.

Lemma split_comma_cons (s : string) : ∃ x xs, split_comma s = x :: xs.
Proof.
  induction s as [|c s (x & xs & IH)]; simpl; [eauto |].
  destruct (Ascii.eqb c ","); [eauto |]. rewrite IH. eauto.
Qed.

Lemma split_comma_comma_free (s : string) :
  Forall (λ x, comma_free x = true) (split_comma s).
Proof.
  induction s as [|c s IH]; simpl; [by repeat constructor |].
  destruct (Ascii.eqb c ",") eqn:E; [by constructor |].
  destruct (split_comma s) as [|x xs]; [by repeat constructor; simpl; rewrite E |].
  inversion IH as [|? ? Hx Hxs]; subst. constructor; [| done].
  simpl. by rewrite E, Hx.
Qed.

Lemma split_comma_whole (s : string) :
  comma_free s = true → split_comma s = [s].
Proof.
  induction s as [|c s IH]; simpl; [done |].
  destruct (Ascii.eqb c ","); simpl; [done |]. intros Hs. by rewrite IH.
Qed.

Lemma split_comma_append (s t : string) :
  comma_free s = true →
  split_comma (s +:+ String "," t) = s :: split_comma t.
Proof.
  induction s as [|c s IH]; simpl; [done |].
  destruct (Ascii.eqb c ","); simpl; [done |]. intros Hs. by rewrite IH.
Qed.

Lemma split_comma_concat (raws : list string) :
  raws ≠ [] →
  Forall (λ r, comma_free r = true) raws →
  split_comma (String.concat "," raws) = raws.
Proof.
  induction raws as [|r raws IH]; [done |]. intros _ Hall.
  inversion Hall as [|? ? Hr Hraws]; subst.
  destruct raws as [|r' raws].
  - by apply split_comma_whole.
  - change (String.concat "," (r :: r' :: raws))
      with (r +:+ String "," (String.concat "," (r' :: raws))).
    rewrite split_comma_append by done. f_equal. by apply IH.
Qed.

Lemma trim_start_first (s : string) (c : ascii) :
  first_char (trim_start s) = Some c → is_space c = false.
Proof.
  induction s as [|d s IH]; simpl; [done |].
  destruct (is_space d) eqn:E; [done |]. simpl. by intros [= <-].
Qed.

Lemma trim_end_first (s : string) (c : ascii) :
  first_char s = Some c → is_space c = false →
  trim_end s = EmptyString ∨ first_char (trim_end s) = Some c.
Proof.
  destruct s as [|d s]; simpl; [done |]. intros [= <-] Hc.
  destruct (trim_end s); [rewrite Hc |]; by right.
Qed.

Lemma trim_end_last (s : string) (c : ascii) :
  last_char (trim_end s) = Some c → is_space c = false.
Proof.
  induction s as [|d s IH]; simpl; [done |].
  destruct (trim_end s) as [|e r] eqn:E.
  - destruct (is_space d) eqn:Hd; simpl; [done |]. by intros [= <-].
  - simpl. simpl in IH. done.
Qed.

Lemma trim_start_comma_free (s : string) :
  comma_free s = true → comma_free (trim_start s) = true.
Proof.
  induction s as [|d s IH]; simpl; [done |].
  intros [Hd Hs]%andb_true_iff. destruct (is_space d); [by apply IH |].
  simpl. by rewrite Hd, Hs.
Qed.

Lemma trim_end_comma_free (s : string) :
  comma_free s = true → comma_free (trim_end s) = true.
Proof.
  induction s as [|d s IH]; simpl; [done |].
  intros [Hd Hs]%andb_true_iff. specialize (IH Hs).
  destruct (trim_end s) as [|e r].
  - destruct (is_space d); simpl; [done |]. by rewrite Hd.
  - simpl in *. by rewrite Hd, IH.
Qed.

Lemma trim_only_spaces (s : string) : only_spaces s = true → trim s = EmptyString.
Proof.
  unfold trim. induction s as [|d s IH]; simpl; [done |].
  intros [Hd Hs]%andb_true_iff. rewrite Hd. by apply IH.
Qed.

Lemma split_comma_blank (s : string) :
  blank s = true → Forall (λ x, only_spaces x = true) (split_comma s).
Proof.
  induction s as [|c s IH]; simpl; [by repeat constructor |].
  intros [Hc Hs]%andb_true_iff. specialize (IH Hs).
  destruct (Ascii.eqb c ",") eqn:E; [by constructor |]. simpl in Hc.
  destruct (split_comma s) as [|x xs]; [by repeat constructor; simpl; rewrite Hc |].
  inversion IH as [|? ? Hx Hxs]; subst. constructor; [| done].
  simpl. by rewrite Hc, Hx.
Qed.

End AllowList.

(** X1.  Every entry of the allow-list built from the environment is a
    non-empty string without a comma that neither starts nor ends with
    white space. *)
Theorem allow_list_entries_clean (env : option string) (e : string) :
  e ∈ ALLOWED_ORIGINS_of_env env →
  e ≠ ""
  ∧ comma_free e = true
  ∧ (∀ c, first_char e = Some c → is_space c = false)
  ∧ (∀ c, last_char e = Some c → is_space c = false).
Proof.
  unfold ALLOWED_ORIGINS_of_env. rewrite list_elem_of_filter, list_elem_of_fmap.
  intros (Hne & x & -> & Hx). split; [done |].
  assert (comma_free x = true) as Hcf.
  { pose proof (split_comma_comma_free (default "" env)) as Hall.
    rewrite Forall_forall in Hall. by apply Hall. }
  split; [| split].
  - unfold trim. by apply trim_end_comma_free, trim_start_comma_free.
  - intros c Hc. unfold trim in *.
    destruct (first_char (trim_start x)) as [d|] eqn:Ed.
    + pose proof (trim_start_first _ _ Ed) as Hd.
      destruct (trim_end_first _ _ Ed Hd) as [Hnil | Hfirst].
      * by rewrite Hnil in Hc.
      * rewrite Hfirst in Hc. by injection Hc as <-.
    + destruct (trim_start x); [done | discriminate].
  - intros c. apply trim_end_last.
Qed.

Lemma allow_list_entries_clean_witness :
  "https://b.example" ≠ "" ∧ comma_free "https://b.example" = true.
Proof.
  refine (let W := allow_list_entries_clean
                     (Some " https://a.example ,, https://b.example  ")
                     "https://b.example" _ in
          conj (proj1 W) (proj1 (proj2 W))).
  vm_compute. apply list_elem_of_In. right. by left.
Defined.

(** X2.  Parsing undoes joining: for ASCII strings without commas, the
    allow-list read from their comma-separated concatenation is the list of
    the trimmed strings, in order, less the empty ones.  (On ASCII strings
    [trim] is the program's.) *)
Theorem allow_list_of_joined (raws : list string) :
  Forall (λ r, ascii_only r = true) raws →
  Forall (λ r, comma_free r = true) raws →
  ALLOWED_ORIGINS_of_env (Some (String.concat "," raws))
  = filter (λ s, s ≠ "") (trim <$> raws).
Proof.
  intros _ Hall. unfold ALLOWED_ORIGINS_of_env. simpl.
  destruct raws as [|r raws]; [done |].
  by rewrite split_comma_concat.
Qed.

Lemma allow_list_of_joined_witness :
  ALLOWED_ORIGINS_of_env
    (Some (String.concat "," ["https://a.example"; " 10.0.0.5 "; " "]))
  = filter (λ s, s ≠ "") (trim <$> ["https://a.example"; " 10.0.0.5 "; " "]).
Proof.
  apply (allow_list_of_joined ["https://a.example"; " 10.0.0.5 "; " "]).
  - repeat constructor.
  - repeat constructor.
Defined.

(** X3.  When the variable is unset, or holds nothing but commas and white
    space, the allow-list is empty and the origin check accepts every
    request. *)
Theorem blank_allow_list_admits_all (env : option string) (cfg : Config)
    (req : Request) :
  ALLOWED_ORIGINS cfg = ALLOWED_ORIGINS_of_env env →
  (∀ s, env = Some s → blank s = true) →
  ALLOWED_ORIGINS cfg = [] ∧ isOriginAllowed cfg req = true.
Proof.
  intros Hcfg Hblank.
  assert (ALLOWED_ORIGINS cfg = []) as Hnil.
  { rewrite Hcfg. unfold ALLOWED_ORIGINS_of_env.
    assert (Forall (λ x, only_spaces x = true) (split_comma (default "" env))) as Hall.
    { destruct env as [s|]; simpl; [by apply split_comma_blank, Hblank |].
      by repeat constructor. }
    induction Hall as [|x xs Hx _ IH]; [done |].
    rewrite fmap_cons, filter_cons. rewrite (trim_only_spaces x Hx).
    by case_decide. }
  split; [done |]. by apply isOriginAllowed_empty_list.
Qed.

Lemma blank_allow_list_admits_all_witness :
  ALLOWED_ORIGINS
    {| ALLOWED_ORIGINS := []; OWNER := "acme"; REPO := "site"; BRANCH := "main" |}
  = []
  ∧ isOriginAllowed
      {| ALLOWED_ORIGINS := []; OWNER := "acme"; REPO := "site"; BRANCH := "main" |}
      (browser_call "https://evil.example" "203.0.113.7" (batch [])) = true.
Proof.
  apply (blank_allow_list_admits_all (Some " , ,, ")
           {| ALLOWED_ORIGINS := []; OWNER := "acme"; REPO := "site";
              BRANCH := "main" |}
           (browser_call "https://evil.example" "203.0.113.7" (batch []))).
  - reflexivity.
  - by intros s [= <-].
Defined.

(** ** The two origin checks (lines 37-51) *)

(** X4.  A request with a declared origin that the CORS callback admits
    passes the origin check of the handler: the handler refuses only
    requests without a declared origin among those the callback admits. *)
Theorem cors_admitted_origin_passes (cfg : Config) (req : Request) (o : string) :
  get_origin req = Some o → o ≠ "" →
  corsOptions_origin cfg (get_origin req) = Return true →
  isOriginAllowed cfg req = true.
Proof.
  intros Ho Hne. unfold corsOptions_origin, isOriginAllowed. rewrite Ho. simpl.
  destruct (String.eqb o "") eqn:E; [by apply String.eqb_eq in E |].
  simpl. rewrite E.
  destruct (length (ALLOWED_ORIGINS cfg) =? 0)%nat; simpl; [done |].
  destruct (bool_decide (o ∈ ALLOWED_ORIGINS cfg)); [done | discriminate].
Qed.

Lemma cors_admitted_origin_passes_witness :
  isOriginAllowed cfg_app
    (browser_call "https://app.example" "203.0.113.7" (batch [])) = true.
Proof.
  apply (cors_admitted_origin_passes cfg_app
           (browser_call "https://app.example" "203.0.113.7" (batch []))
           "https://app.example").
  - reflexivity.
  - discriminate.
  - reflexivity.
Defined.

(** X5.  Adding entries to a non-empty allow-list never turns an accepted
    request into a refused one.  (From the empty list it does: the empty
    list admits everyone.) *)
Theorem allow_list_grows (cfg cfg' : Config) (req : Request) :
  ALLOWED_ORIGINS cfg ≠ [] →
  ALLOWED_ORIGINS cfg ⊆ ALLOWED_ORIGINS cfg' →
  isOriginAllowed cfg req = true →
  isOriginAllowed cfg' req = true.
Proof.
  intros Hne Hsub. unfold isOriginAllowed.
  destruct (length (ALLOWED_ORIGINS cfg) =? 0)%nat eqn:E.
  { by apply length_eqb_0 in E. }
  destruct (length (ALLOWED_ORIGINS cfg') =? 0)%nat; [done |].
  rewrite !orb_true_iff, !includes_true.
  intros [(s & Hs & Hin) | (s & Hs & Hin)]; [left | right]; exists s;
    (split; [done | by apply Hsub]).
Qed.

Lemma allow_list_grows_witness :
  isOriginAllowed cfg_app_and_host
    (browser_call "https://app.example" "203.0.113.7" (batch [])) = true.
Proof.
  apply (allow_list_grows cfg_app cfg_app_and_host
           (browser_call "https://app.example" "203.0.113.7" (batch []))).
  - discriminate.
  - intros x Hx. simpl in *. apply elem_of_cons. by left;
      apply list_elem_of_singleton in Hx.
  - reflexivity.
Defined.

(** ** Startup (lines 17-28) *)

Lemma or_literal_nonempty (v : option string) (d : string) :
  d ≠ "" → or_literal v d ≠ "".
Proof.
  intros Hd. destruct v as [s|]; simpl; [| done].
  destruct (String.eqb s "") eqn:E; [done |].
  intros ->. by rewrite String.eqb_refl in E.
Qed.

(** X6.  The process exits at startup exactly when the owner, the name of
    the repository or the token is missing or empty.  When it starts, the
    owner, the repository, the token and the branch it holds are non-empty,
    the first three are those of the environment, the branch is [main]
    unless the environment gives a non-empty one, and the allow-list has no
    empty entry. *)
Theorem startup_settings (env : Env) :
  (startup env = None
   ↔ falsy (env_TARGET_REPO_OWNER env) = true
     ∨ falsy (env_TARGET_REPO_NAME env) = true
     ∨ falsy (env_AGENT_GITHUB_TOKEN env) = true)
  ∧ ∀ st, startup env = Some st →
      env_TARGET_REPO_OWNER env = Some (OWNER (config st))
      ∧ env_TARGET_REPO_NAME env = Some (REPO (config st))
      ∧ env_AGENT_GITHUB_TOKEN env = Some (TOKEN st)
      ∧ OWNER (config st) ≠ "" ∧ REPO (config st) ≠ "" ∧ TOKEN st ≠ ""
      ∧ BRANCH (config st) ≠ ""
      ∧ (falsy (env_TARGET_BRANCH env) = true → BRANCH (config st) = "main")
      ∧ "" ∉ ALLOWED_ORIGINS (config st).
Proof.
  unfold startup.
  destruct (falsy (env_TARGET_REPO_OWNER env)) eqn:Eo; simpl.
  { split; [by split; [left |] | done]. }
  destruct (falsy (env_TARGET_REPO_NAME env)) eqn:Er; simpl.
  { split; [by split; [right; left |] | done]. }
  destruct (falsy (env_AGENT_GITHUB_TOKEN env)) eqn:Et; simpl.
  { split; [by split; [right; right |] | done]. }
  split.
  { split; [done | by intros [? | [? | ?]]]. }
  intros st [= <-]. simpl.
  destruct (env_TARGET_REPO_OWNER env) as [o|]; [| done].
  destruct (env_TARGET_REPO_NAME env) as [r|]; [| done].
  destruct (env_AGENT_GITHUB_TOKEN env) as [t|]; [| done].
  simpl in *. repeat split; try done.
  - intros ->. by rewrite String.eqb_refl in Eo.
  - intros ->. by rewrite String.eqb_refl in Er.
  - intros ->. by rewrite String.eqb_refl in Et.
  - by apply or_literal_nonempty.
  - destruct (env_TARGET_BRANCH env) as [b|]; simpl; [| done].
    by intros ->.
  - apply ALLOWED_ORIGINS_of_env_entries.
Qed.

Lemma startup_settings_witness :
  startup env_sample
  = Some {| config := cfg_app_and_host; TOKEN := "ghp_token";
            USER_AGENT := "internal-coding-agent"; PORT := VNum 3000 |}
  ∧ BRANCH cfg_app_and_host = "main".
Proof.
  split; [reflexivity |].
  refine (proj1 (proj2 (proj2 (proj2 (proj2 (proj2 (proj2 (proj2
    (proj2 (startup_settings env_sample)
       {| config := cfg_app_and_host; TOKEN := "ghp_token";
          USER_AGENT := "internal-coding-agent"; PORT := VNum 3000 |}
       _)))))))) _); reflexivity.
Defined.

(** ** The answers of the handler (lines 63-124) *)

Section Answers.
Context `{Platform} `{Octokit St}.
Variable cfg : Config.
Implicit Types (w : World St) (f p c : value) (rs : list FileResult.t)
  (fs pre post : list value).

Lemma destructure_body_prop b files cm br :
  destructure_body cfg b = Return (files, cm, br) →
  files = prop b "files" ∧ cm = commitMessage_of b ∧ br = branch_of cfg b.
Proof.
  unfold commitMessage_of, branch_of, prop.
  destruct b; simpl; try done; by intros [= <- <- <-].
Qed.

(** The four ways the handler answers. *)
Lemma post_tasks_cases req w :
  (isOriginAllowed cfg req = false
   ∧ post_tasks cfg req w
     = (Return (respond 403 (ErrorBody "origin not allowed")), w))
  ∨ (isOriginAllowed cfg req = true
     ∧ ∃ e, destructure_body cfg (body req) = Throw e
            ∧ post_tasks cfg req w
              = (Return (respond 500 (ErrorBody (message_or_default e))), w))
  ∨ (isOriginAllowed cfg req = true
     ∧ (Array_isArray (prop (body req) "files") = false
        ∨ elements (prop (body req) "files") = [])
     ∧ post_tasks cfg req w
       = (Return (respond 400 (ErrorBody "files array required")), w))
  ∨ (∃ fs, prop (body req) "files" = VArr fs
           ∧ accepted cfg req fs (commitMessage_of (body req))
               (branch_of cfg (body req))
           ∧ post_tasks cfg req w
             = conclude (for_files cfg (commitMessage_of (body req))
                           (branch_of cfg (body req)) fs [] w)).
Proof.
  destruct (isOriginAllowed cfg req) eqn:Ho.
  2: { left. split; [done |]. by apply post_tasks_rejected. }
  right.
  destruct (destructure_body cfg (body req)) as [[[files cm] br]|e] eqn:Hb.
  2: { left. split; [done |]. exists e. split; [done |].
       unfold post_tasks, try_catch, bind, eval. by rewrite Ho, Hb. }
  right.
  destruct (destructure_body_prop _ _ _ _ Hb) as (-> & -> & ->).
  destruct (prop (body req) "files") as [| | | | |fs|] eqn:Hf;
    try (left; split; [done |]; split; [by left |];
         unfold post_tasks, try_catch, bind, eval; by rewrite Ho, Hb).
  destruct fs as [|f fs].
  { left. split; [done |]. split; [by right |].
    unfold post_tasks, try_catch, bind, eval. by rewrite Ho, Hb. }
  right. exists (f :: fs). split; [done |].
  assert (accepted cfg req (f :: fs) (commitMessage_of (body req))
            (branch_of cfg (body req))) as Hacc by done.
  split; [done |]. by apply post_tasks_accepted.
Qed.

End Answers.

(** X7.  A 403 is answered only when the origin check refuses the request,
    and a 400 only when the check passes and [files] is missing, empty or
    no array; in both cases nothing was sent to the remote service. *)
Theorem refusals_only_for_cause `{Platform} `{Octokit St}
    (cfg : Config) (req : Request) (w w' : World St) (r : Response) :
  post_tasks cfg req w = (Return r, w') →
  (statusCode r = 403%nat → isOriginAllowed cfg req = false ∧ w' = w)
  ∧ (statusCode r = 400%nat →
     isOriginAllowed cfg req = true
     ∧ (Array_isArray (prop (body req) "files") = false
        ∨ elements (prop (body req) "files") = [])
     ∧ w' = w).
Proof.
  intros Hrun.
  destruct (post_tasks_cases cfg req w)
    as [(Ho & Hr) | [(Ho & e & _ & Hr) | [(Ho & Hf & Hr) | (fs & _ & _ & Hr)]]];
    rewrite Hr in Hrun.
  - injection Hrun as <- <-. split; [done |]. simpl. discriminate.
  - injection Hrun as <- <-. split; simpl; discriminate.
  - injection Hrun as <- <-. split; [simpl; discriminate | done].
  - unfold conclude in Hrun.
    destruct (for_files _ _ _ _ _ _) as [[rs|e] w1];
      injection Hrun as <- <-; split; simpl; discriminate.
Qed.

Lemma refusals_only_for_cause_witness :
  isOriginAllowed cfg_app
    (server_call "203.0.113.7" (batch [file_spec "a.txt" "hi"])) = false
  ∧ fresh = fresh.
Proof.
  refine (proj1 (refusals_only_for_cause cfg_app
            (server_call "203.0.113.7" (batch [file_spec "a.txt" "hi"]))
            fresh fresh (respond 403 (ErrorBody "origin not allowed")) _) _);
    reflexivity.
Defined.

(** X8.  A request that passes the origin check and has no parsed body
    ([req.body] is [undefined] or [null]) is answered 500, not 400, and
    nothing is sent to the remote service. *)
Theorem missing_body_answered_500 `{Platform} `{Octokit St}
    (cfg : Config) (req : Request) (w : World St) :
  isOriginAllowed cfg req = true →
  body req = VUndefined ∨ body req = VNull →
  ∃ msg, msg ≠ ""
         ∧ post_tasks cfg req w = (Return (respond 500 (ErrorBody msg)), w).
Proof.
  intros Ho Hb. unfold post_tasks, try_catch, bind, eval. rewrite Ho. simpl.
  destruct Hb as [-> | ->]; simpl; eexists; (split; [| reflexivity]); done.
Qed.

Lemma missing_body_answered_500_witness :
  ∃ msg, msg ≠ ""
         ∧ post_tasks cfg_open (server_call "10.0.0.5" VUndefined) fresh
           = (Return (respond 500 (ErrorBody msg)), fresh).
Proof.
  apply (missing_body_answered_500 cfg_open (server_call "10.0.0.5" VUndefined) fresh).
  - reflexivity.
  - by left.
Defined.

(** ** The loop, entry by entry (lines 74-115) *)

Section Iterations.
Context `{Platform} `{Octokit St}.
Variable cfg : Config.
Variables commitMessage branch : value.
Implicit Types (w : World St) (f p c : value) (rs : list FileResult.t)
  (fs pre post : list value).

(** One iteration, whatever it starts from: it throws (and may have made
    the read), or pushes one result. *)
Lemma loop_body_outcomes f rs w :
  (∃ e, invalid_file f = Throw e
        ∧ loop_body cfg commitMessage branch f rs w = (Throw e, w))
  ∨ (skips f = true
     ∧ loop_body cfg commitMessage branch f rs w
       = (Return (rs ++ [skipped (prop f "path")]), w))
  ∨ (skips f = false ∧ truthy (prop f "path") = true
     ∧ ∃ e, Buffer_from (prop f "content") (encoding_of (prop f "encoding"))
            = Throw e
            ∧ loop_body cfg commitMessage branch f rs w
              = (Throw e,
                 mkWorld (repos_getContent
                            (read_params cfg (prop f "path") branch) (remote w)).2
                   (calls w ++ [CallGetContent
                                  (read_params cfg (prop f "path") branch)])))
  ∨ (skips f = false ∧ truthy (prop f "path") = true
     ∧ ∃ encoded sha r w',
         (FileResult.status r = "ok" ∨ FileResult.status r = "error")
         ∧ FileResult.path r = prop f "path"
         ∧ calls w' = calls w
                      ++ [CallGetContent (read_params cfg (prop f "path") branch);
                          CallCreateOrUpdate
                            (write_params cfg (prop f "path") commitMessage
                               branch encoded sha)]
         ∧ ∀ rs', loop_body cfg commitMessage branch f rs' w
                  = (Return (rs' ++ [r]), w')).
Proof.
  unfold skips.
  destruct (invalid_file f) as [[|]|e] eqn:Hinv.
  - right. left. split; [done |].
    destruct (invalid_file_true f Hinv) as (p & Hp & _).
    rewrite (loop_body_invalid cfg _ _ _ p) by done.
    unfold prop. by rewrite Hp.
  - right. right.
    destruct (invalid_file_false f Hinv) as (p & c & Hp & Tp & Hc & _).
    assert (prop f "path" = p) as -> by (unfold prop; by rewrite Hp).
    assert (prop f "content" = c) as -> by (unfold prop; by rewrite Hc).
    destruct (Buffer_from c (encoding_of (prop f "encoding"))) as [buf|e] eqn:Hbuf.
    + right. split; [done |]. split; [done |].
      eexists _, _, _, _. split; [| split; [| split]].
      4: { intros rs'. by apply (loop_body_writes cfg _ _ _ p c buf). }
      * unfold write_result. repeat case_match; simpl; auto.
      * unfold write_result. by repeat case_match.
      * done.
    + left. split; [done |]. split; [done |]. exists e. split; [done |].
      rewrite (loop_body_valid cfg _ _ _ p c) by done.
      by rewrite Hbuf, read_sha_run.
  - left. exists e. split; [done |].
    unfold loop_body, bind, eval. by rewrite Hinv.
Qed.

(** The results a run starts from do not influence it. *)
Lemma loop_body_from f rs w :
  loop_body cfg commitMessage branch f rs w
  = match loop_body cfg commitMessage branch f [] w with
    | (Return new, w') => (Return (rs ++ new), w')
    | (Throw e, w') => (Throw e, w')
    end.
Proof.
  destruct (invalid_file f) as [[|]|e] eqn:Hinv.
  - destruct (invalid_file_true f Hinv) as (p & Hp & _).
    by rewrite !(loop_body_invalid cfg _ _ _ p).
  - destruct (invalid_file_false f Hinv) as (p & c & Hp & Tp & Hc & _).
    rewrite !(loop_body_valid cfg _ _ _ p c) by done.
    destruct (Buffer_from _ _); [| done].
    by rewrite !write_file_run.
  - unfold loop_body, bind, eval. by rewrite Hinv.
Qed.

Lemma for_files_from fs rs w :
  for_files cfg commitMessage branch fs rs w
  = match for_files cfg commitMessage branch fs [] w with
    | (Return new, w') => (Return (rs ++ new), w')
    | (Throw e, w') => (Throw e, w')
    end.
Proof.
  revert rs w. induction fs as [|f fs IH]; intros rs w; simpl.
  { by rewrite app_nil_r. }
  unfold bind. rewrite (loop_body_from f rs w).
  destruct (loop_body cfg commitMessage branch f [] w) as [[new|e] w1]; [| done].
  rewrite (IH (rs ++ new)), (IH new).
  destruct (for_files _ _ _ _ [] w1) as [[new'|e] w2]; [| done].
  by rewrite app_assoc.
Qed.

Lemma for_files_result_of fs rs w res w' :
  for_files cfg commitMessage branch fs rs w = (Return res, w') →
  ∃ new, res = rs ++ new ∧ Forall2 result_of fs new.
Proof.
  revert rs w. induction fs as [|f fs IH]; intros rs w; simpl.
  { intros [= <- <-]. exists []. by rewrite app_nil_r. }
  unfold bind.
  destruct (loop_body_outcomes f rs w)
    as [(e & _ & Hb) | [(Hs & Hb) | [(_ & _ & e & _ & Hb)
        | (Hs & Tp & enc & sha & r & w1 & Hst & Hpath & _ & Hb)]]].
  - by rewrite Hb.
  - rewrite Hb. intros Hrest. destruct (IH _ _ Hrest) as (new & -> & Hnew).
    exists (skipped (prop f "path") :: new). rewrite <- app_assoc.
    split; [done |]. constructor; [| done].
    split; [done |]. split; [done | by rewrite Hs].
  - by rewrite Hb.
  - rewrite (Hb rs). intros Hrest. destruct (IH _ _ Hrest) as (new & -> & Hnew).
    exists (r :: new). rewrite <- app_assoc. split; [done |].
    constructor; [| done]. split; [| split].
    + unfold js_or. by rewrite Tp.
    + by rewrite Hs.
    + done.
Qed.

(** The calls of a run of the loop. *)
Lemma for_files_calls fs rs w :
  ∃ new,
    calls (for_files cfg commitMessage branch fs rs w).2 = calls w ++ new
    ∧ exchanges cfg commitMessage branch new
    ∧ (reads new ≤ length (filter (λ f, skips f = false) fs))%nat
    ∧ (writes new ≤ reads new)%nat
    ∧ ∀ res, (for_files cfg commitMessage branch fs rs w).1 = Return res →
             reads new = length (filter (λ f, skips f = false) fs)
             ∧ writes new = reads new.
Proof.
  revert rs w. induction fs as [|f fs IH]; intros rs w; simpl.
  { exists []. rewrite app_nil_r.
    split; [done |]. split; [constructor |]. by repeat split. }
  unfold bind.
  destruct (loop_body_outcomes f rs w)
    as [(e & Hi & Hb) | [(Hs & Hb) | [(Hs & Tp & e & _ & Hb)
        | (Hs & Tp & enc & sha & r & w1 & _ & _ & Hcalls & Hb)]]].
  - rewrite Hb. exists []. rewrite app_nil_r. simpl.
    split; [done |]. split; [constructor |].
    split; [unfold reads; simpl; lia |]. split; [done |]. discriminate.
  - rewrite Hb. destruct (IH (rs ++ [skipped (prop f "path")]) w)
      as (new & Hc & Hex & Hr & Hw & Hend).
    exists new. rewrite filter_cons. rewrite Hs.
    case_decide; [done |]. done.
  - rewrite Hb. simpl.
    exists [CallGetContent (read_params cfg (prop f "path") branch)].
    split; [done |]. split; [by constructor |].
    rewrite filter_cons, Hs. case_decide; [| done]. simpl.
    unfold reads, writes. simpl.
    split; [lia |]. split; [lia |]. discriminate.
  - rewrite (Hb rs). destruct (IH (rs ++ [r]) w1)
      as (new & Hc & Hex & Hr & Hw & Hend).
    exists (CallGetContent (read_params cfg (prop f "path") branch)
            :: CallCreateOrUpdate
                 (write_params cfg (prop f "path") commitMessage branch enc sha)
            :: new).
    rewrite Hc, Hcalls, <- app_assoc. split; [done |].
    split; [by constructor |].
    rewrite filter_cons, Hs. case_decide; [| done].
    unfold reads, writes in *. simpl.
    rewrite !filter_cons. simpl.
    repeat case_decide; try done. simpl.
    split; [lia |]. split; [lia |].
    intros res Hres. destruct (Hend res Hres). lia.
Qed.

End Iterations.

(** X9.  Whenever the answer is 200, the origin check passed, [files] is a
    non-empty array and the body is [{ok: true, results}] with one result
    per entry in the order of the entries: each result carries the [path]
    of its entry ([null] when that is falsy), is the skipped result exactly
    for the entries that fail the validation, and has status [ok] or
    [error] for the others. *)
Theorem ok_answer_has_all_results `{Platform} `{Octokit St}
    (cfg : Config) (req : Request) (w w' : World St) (r : Response) :
  post_tasks cfg req w = (Return r, w') →
  statusCode r = 200%nat →
  ∃ fs results,
    isOriginAllowed cfg req = true
    ∧ prop (body req) "files" = VArr fs ∧ fs ≠ []
    ∧ json r = ResultsBody true results
    ∧ Forall2 result_of fs results.
Proof.
  intros Hrun Hcode.
  destruct (post_tasks_cases cfg req w)
    as [(Ho & Hr) | [(Ho & e & _ & Hr) | [(Ho & Hf & Hr) | (fs & Hfs & Hacc & Hr)]]];
    rewrite Hr in Hrun; try (injection Hrun as <- <-; discriminate).
  unfold conclude in Hrun.
  destruct (for_files _ _ _ _ _ _) as [[rs|e] w1] eqn:Hloop;
    injection Hrun as <- <-; [| discriminate].
  destruct (for_files_result_of cfg _ _ _ _ _ _ _ Hloop) as (new & -> & Hnew).
  destruct Hacc as (Ho & _ & Hne). exists fs, new. done.
Qed.

Lemma ok_answer_has_all_results_witness :
  ∃ fs results,
    isOriginAllowed cfg_open
      (server_call "10.0.0.5"
         (batch [file_spec "/b" "x"; VNum 7; file_spec "a.txt" "hi"])) = true
    ∧ prop (body (server_call "10.0.0.5"
                    (batch [file_spec "/b" "x"; VNum 7; file_spec "a.txt" "hi"])))
        "files" = VArr fs
    ∧ fs ≠ []
    ∧ json (respond 200
              (ResultsBody true
                 [FileResult.make (VStr "/b") "error" None
                    (Some "path cannot start with a slash") None;
                  FileResult.make VNull "skipped" (Some "invalid file object")
                    None None;
                  ok_a]))
      = ResultsBody true results
    ∧ Forall2 result_of fs results.
Proof.
  refine (ok_answer_has_all_results cfg_open
            (server_call "10.0.0.5"
               (batch [file_spec "/b" "x"; VNum 7; file_spec "a.txt" "hi"]))
            fresh
            (mkWorld (remote after_a)
               ([CallGetContent (GetContent.make "acme" "site" (VStr "/b") main);
                 CallCreateOrUpdate
                   (CreateOrUpdate.make "acme" "site" (VStr "/b") default_message
                      "eA==" main VUndefined)] ++ calls after_a))
            _ _ _).
  - by vm_compute.
  - reflexivity.
Defined.

(** X10.  Whatever the request and whatever the service answers, the calls
    the handler adds to the log follow one pattern: every write comes right
    after a read of the same path; both are for the configured owner and
    repository, a truthy path and the branch of the request (or the
    configured one), and every write carries the commit message of the
    request (or the default one).  A read without its write can only be the
    last call. *)
Theorem calls_follow_read_then_write `{Platform} `{Octokit St}
    (cfg : Config) (req : Request) (w : World St) :
  ∃ new,
    calls (post_tasks cfg req w).2 = calls w ++ new
    ∧ exchanges cfg (commitMessage_of (body req)) (branch_of cfg (body req)) new.
Proof.
  destruct (post_tasks_cases cfg req w)
    as [(Ho & Hr) | [(Ho & e & _ & Hr) | [(Ho & Hf & Hr) | (fs & Hfs & Hacc & Hr)]]];
    rewrite Hr;
    try (exists []; rewrite app_nil_r; split; [done | constructor]).
  destruct (for_files_calls cfg (commitMessage_of (body req))
              (branch_of cfg (body req)) fs [] w) as (new & Hc & Hex & _).
  exists new. split; [| done].
  unfold conclude. by destruct (for_files _ _ _ _ _ _) as [[rs|e] w1].
Qed.

(** X11.  The handler makes at most one read and one write per entry that
    passes the validation, and never more writes than reads; when the
    answer is 200 it made exactly one read and one write for each such
    entry. *)
Theorem calls_bounded_by_entries `{Platform} `{Octokit St}
    (cfg : Config) (req : Request) (w : World St) (new : list Call) :
  calls (post_tasks cfg req w).2 = calls w ++ new →
  let valid := filter (λ f, skips f = false) (elements (prop (body req) "files")) in
  (reads new ≤ length valid)%nat
  ∧ (writes new ≤ reads new)%nat
  ∧ ∀ r, (post_tasks cfg req w).1 = Return r → statusCode r = 200%nat →
         reads new = length valid ∧ writes new = length valid.
Proof.
  intros Hnew valid.
  destruct (post_tasks_cases cfg req w)
    as [(Ho & Hr) | [(Ho & e & _ & Hr) | [(Ho & Hf & Hr) | (fs & Hfs & Hacc & Hr)]]];
    rewrite Hr in Hnew |- *.
  1-3: simpl in Hnew; rewrite <- (app_nil_r (calls w)) in Hnew at 1;
       apply app_inv_head in Hnew as <-;
       (split; [unfold reads; simpl; lia |]); (split; [done |]);
       by intros r [= <-].
  destruct (for_files_calls cfg (commitMessage_of (body req))
              (branch_of cfg (body req)) fs [] w) as (new' & Hc & _ & Hr1 & Hw1 & Hend).
  assert (new = new') as ->.
  { apply (app_inv_head (calls w)). rewrite <- Hnew, <- Hc.
    unfold conclude. by destruct (for_files _ _ _ _ _ _) as [[rs|e] w1]. }
  subst valid. rewrite Hfs. simpl. split; [done |]. split; [done |].
  intros r Hr2 Hcode. unfold conclude in Hr2.
  destruct (for_files _ _ _ _ _ _) as [[rs|e] w1] eqn:Hloop;
    simpl in Hr2; injection Hr2 as <-; [| discriminate].
  destruct (Hend rs eq_refl). lia.
Qed.

Lemma calls_bounded_by_entries_witness :
  (reads (calls after_a) ≤ 1)%nat
  ∧ (writes (calls after_a) ≤ reads (calls after_a))%nat.
Proof.
  refine (let W := calls_bounded_by_entries cfg_open
                     (server_call "10.0.0.5" (batch [VNum 7; file_spec "a.txt" "hi"]))
                     fresh (calls after_a) _ in
          conj (proj1 W) (proj1 (proj2 W))).
  by vm_compute.
Defined.

(** X12.  An accepted batch in which every entry fails the validation is
    answered 200 with one skipped result per entry, and nothing is sent to
    the remote service. *)
Theorem all_invalid_batch_makes_no_call `{Platform} `{Octokit St}
    (cfg : Config) (req : Request) (commitMessage branch : value)
    (fs : list value) (w : World St) :
  accepted cfg req fs commitMessage branch →
  Forall (λ f, skips f = true) fs →
  post_tasks cfg req w
  = (Return (respond 200
               (ResultsBody true ((λ f, skipped (prop f "path")) <$> fs))), w).
Proof.
  intros Hacc Hall. rewrite (post_tasks_accepted cfg _ _ _ _ _ Hacc).
  clear Hacc.
  assert (∀ rs, for_files cfg commitMessage branch fs rs w
                = (Return (rs ++ ((λ f, skipped (prop f "path")) <$> fs)), w))
    as Hloop.
  { induction Hall as [|f fs Hf _ IH]; intros rs; simpl.
    - by rewrite app_nil_r.
    - unfold bind.
      destruct (loop_body_outcomes cfg commitMessage branch f rs w)
        as [(e & Hi & _) | [(_ & Hb) | [(Hs & _) | (Hs & _)]]].
      + unfold skips in Hf. by rewrite Hi in Hf.
      + rewrite Hb, IH. by rewrite <- app_assoc.
      + by rewrite Hf in Hs.
      + by rewrite Hf in Hs. }
  by rewrite (Hloop []).
Qed.

Lemma all_invalid_batch_makes_no_call_witness :
  post_tasks cfg_open
    (server_call "10.0.0.5"
       (batch [VNum 7; VStr "a.txt"; VObj [("path", VStr "b.txt")];
               VObj [("content", VStr "x")]; VArr []])) fresh
  = (Return (respond 200
               (ResultsBody true
                  ((λ f, skipped (prop f "path"))
                     <$> [VNum 7; VStr "a.txt"; VObj [("path", VStr "b.txt")];
                          VObj [("content", VStr "x")]; VArr []]))), fresh).
Proof.
  apply (all_invalid_batch_makes_no_call cfg_open
           (server_call "10.0.0.5"
              (batch [VNum 7; VStr "a.txt"; VObj [("path", VStr "b.txt")];
                      VObj [("content", VStr "x")]; VArr []]))
           default_message main
           [VNum 7; VStr "a.txt"; VObj [("path", VStr "b.txt")];
            VObj [("content", VStr "x")]; VArr []] fresh).
  - split; [reflexivity |]. split; [reflexivity | discriminate].
  - repeat constructor.
Defined.

(** X13.  A [null] entry in an accepted batch ends the request: when the
    loop comes to it, reading its [path] throws, the answer is 500, and the
    world is the one the entries before it left: their writes stay, nothing
    is sent for the [null] entry, and the entries after it are not
    handled. *)
Theorem null_entry_ends_request `{Platform} `{Octokit St}
    (cfg : Config) (req : Request) (commitMessage branch : value)
    (pre : list value) (f : value) (post : list value)
    (rs : list FileResult.t) (w0 w : World St) :
  accepted cfg req (pre ++ f :: post) commitMessage branch →
  for_files cfg commitMessage branch pre [] w0 = (Return rs, w) →
  f = VNull ∨ f = VUndefined →
  ∃ msg, msg ≠ ""
         ∧ post_tasks cfg req w0 = (Return (respond 500 (ErrorBody msg)), w).
Proof.
  intros Hacc Hpre Hf.
  destruct (post_tasks_reaches cfg _ _ _ _ _ _ _ _ _ Hacc Hpre) as (Hrun & _).
  rewrite Hrun.
  destruct Hf as [-> | ->]; unfold loop_body, bind, eval; simpl;
    eexists; (split; [| reflexivity]); done.
Qed.

Lemma null_entry_ends_request_witness :
  ∃ msg, msg ≠ ""
         ∧ post_tasks cfg_open
             (server_call "10.0.0.5"
                (batch [file_spec "a.txt" "hi"; VNull; file_spec "c.txt" "x"]))
             fresh
           = (Return (respond 500 (ErrorBody msg)), after_a).
Proof.
  apply (null_entry_ends_request cfg_open
           (server_call "10.0.0.5"
              (batch [file_spec "a.txt" "hi"; VNull; file_spec "c.txt" "x"]))
           default_message main [file_spec "a.txt" "hi"] VNull
           [file_spec "c.txt" "x"] [ok_a] fresh after_a).
  - split; [reflexivity |]. split; [reflexivity | discriminate].
  - by vm_compute.
  - by left.
Defined.

(** X14.  An entry that passes the validation but whose content
    [Buffer.from] refuses ends the request: after the read of its path the
    throw of line 98 reaches the outer [catch], the answer is 500 with the
    message of the error, no write is made for the entry, the writes of the
    entries before it stay, and the entries after it are not handled. *)
Theorem refused_content_ends_request `{Platform} `{Octokit St}
    (cfg : Config) (req : Request) (commitMessage branch : value)
    (pre : list value) (f : value) (post : list value)
    (rs : list FileResult.t) (w0 w : World St) (e : Error.t) :
  accepted cfg req (pre ++ f :: post) commitMessage branch →
  for_files cfg commitMessage branch pre [] w0 = (Return rs, w) →
  invalid_file f = Return false →
  Buffer_from (prop f "content") (encoding_of (prop f "encoding")) = Throw e →
  post_tasks cfg req w0
  = (Return (respond 500 (ErrorBody (message_or_default e))),
     mkWorld (repos_getContent (read_params cfg (prop f "path") branch) (remote w)).2
       (calls w ++ [CallGetContent (read_params cfg (prop f "path") branch)])).
Proof.
  intros Hacc Hpre Hinv Hbuf.
  destruct (post_tasks_reaches cfg _ _ _ _ _ _ _ _ _ Hacc Hpre) as (Hrun & _).
  rewrite Hrun.
  destruct (invalid_file_false f Hinv) as (p & c & Hp & _ & Hc & _).
  assert (prop f "path" = p) as -> by (unfold prop; by rewrite Hp).
  assert (prop f "content" = c) as Hpc by (unfold prop; by rewrite Hc).
  rewrite Hpc in Hbuf.
  rewrite (loop_body_valid cfg _ _ _ p c) by done.
  by rewrite Hbuf, read_sha_run.
Qed.

Lemma refused_content_ends_request_witness :
  post_tasks cfg_open
    (server_call "10.0.0.5"
       (batch [file_spec "a.txt" "hi"; VObj [("path", VStr "b.txt"); ("content", VBool true)];
               file_spec "c.txt" "x"])) fresh
  = (Return (respond 500
               (ErrorBody (message_or_default (ERR_INVALID_ARG_TYPE (VBool true))))),
     mkWorld (remote after_a)
       (calls after_a
        ++ [CallGetContent (GetContent.make "acme" "site" (VStr "b.txt") main)])).
Proof.
  refine (refused_content_ends_request cfg_open
            (server_call "10.0.0.5"
               (batch [file_spec "a.txt" "hi";
                       VObj [("path", VStr "b.txt"); ("content", VBool true)];
                       file_spec "c.txt" "x"]))
            default_message main [file_spec "a.txt" "hi"]
            (VObj [("path", VStr "b.txt"); ("content", VBool true)])
            [file_spec "c.txt" "x"] [ok_a] fresh after_a
            (ERR_INVALID_ARG_TYPE (VBool true)) _ _ _ _).
  - split; [reflexivity |]. split; [reflexivity | discriminate].
  - by vm_compute.
  - reflexivity.
  - reflexivity.
Defined.

(** X15.  What is reported for a write that resolves depends on the shape
    of its response.  When the response, its [data] or the [commit] of its
    [data] is [null] or [undefined], reading [createRes.data.commit.sha]
    throws inside the [try] and the entry is reported with status [error],
    although the write was made.  Otherwise the entry is reported with
    status [ok] and [commitSha] is [data.commit.sha], whatever it is. *)
Theorem resolved_write_reported_by_shape `{Platform} `{Octokit St}
    (cfg : Config) (commitMessage branch : value) (f : value)
    (rs : list FileResult.t) (w : World St) (buf : list byte)
    (createRes : value) :
  invalid_file f = Return false →
  Buffer_from (prop f "content") (encoding_of (prop f "encoding")) = Return buf →
  let p := prop f "path" in
  let read := repos_getContent (read_params cfg p branch) (remote w) in
  let pw := write_params cfg p commitMessage branch
              (Buffer_toString_base64 buf) (revision_marker read.1) in
  let write := repos_createOrUpdateFileContents pw read.2 in
  let commit := prop (prop createRes "data") "commit" in
  write.1 = Return createRes →
  ∃ r,
    loop_body cfg commitMessage branch f rs w
    = (Return (rs ++ [r]),
       mkWorld write.2
         (calls w ++ [CallGetContent (read_params cfg p branch);
                      CallCreateOrUpdate pw]))
    ∧ (nullish createRes || nullish (prop createRes "data") || nullish commit = true
       → ∃ msg, r = FileResult.make p "error" None (Some msg) None)
    ∧ (nullish createRes || nullish (prop createRes "data") || nullish commit = false
       → r = FileResult.make p "ok" None None (Some (prop commit "sha"))).
Proof.
  intros Hinv Hbuf p read pw write commit Hwrite.
  destruct (invalid_file_false f Hinv) as (p' & c & Hp & _ & Hc & _).
  assert (p' = p) as -> by (subst p; unfold prop; by rewrite Hp).
  assert (prop f "content" = c) as Hpc by (unfold prop; by rewrite Hc).
  rewrite Hpc in Hbuf.
  pose proof (loop_body_writes cfg commitMessage branch f p c buf rs w
                Hinv Hp Hc Hbuf) as Hbody.
  simpl in Hbody. fold read in Hbody. fold pw in Hbody. fold write in Hbody.
  rewrite Hwrite in Hbody.
  eexists. split; [exact Hbody |]. subst commit.
  unfold write_result, commit_sha_of, prop.
  destruct createRes as [| | | | | |props]; simpl;
    try (split; [intros _; eexists; reflexivity | intros; discriminate]).
  destruct (own_property "data" props) as [| | | | | |dprops]; simpl;
    try (split; [intros _; eexists; reflexivity | intros; discriminate]).
  destruct (own_property "commit" dprops) as [| | | | | |cprops]; simpl;
    first [ split; [intros _; eexists; reflexivity | intros; discriminate]
          | split; [intros; discriminate | intros _; reflexivity] ].
Qed.

Lemma resolved_write_reported_by_shape_witness :
  ∃ r,
    loop_body cfg_open default_message main (file_spec "a.txt" "hi") []
      resolves_without_commit
    = (Return ([] ++ [r]),
       mkWorld []
         (calls resolves_without_commit
          ++ [CallGetContent (GetContent.make "acme" "site" (VStr "a.txt") main);
              CallCreateOrUpdate
                (CreateOrUpdate.make "acme" "site" (VStr "a.txt") default_message
                   "aGk=" main VUndefined)]))
    ∧ ∃ msg, r = FileResult.make (VStr "a.txt") "error" None (Some msg) None.
Proof.
  destruct (resolved_write_reported_by_shape cfg_open default_message main
              (file_spec "a.txt" "hi") [] resolves_without_commit
              ["h"%byte; "i"%byte]
              (VObj [("status", VNum 201); ("data", VObj [("content", VNull)])])
              ltac:(reflexivity) ltac:(reflexivity) ltac:(reflexivity))
    as (r & Hrun & Herr & _).
  exists r. split; [exact Hrun |]. apply Herr. reflexivity.
Defined.

(** X16.  A batch can be split: when a request with the entries [A] is
    answered 200 and a request with the entries [B], made next, is answered
    200, one request with the entries [A ++ B] (same commit message and
    branch) made in their place is answered 200 with the results of the
    first followed by those of the second, and leaves the same world. *)
Theorem batch_splits `{Platform} `{Octokit St}
    (cfg : Config) (reqA reqB req : Request) (commitMessage branch : value)
    (A B : list value) (rsA rsB : list FileResult.t) (w w1 w2 : World St) :
  accepted cfg reqA A commitMessage branch →
  accepted cfg reqB B commitMessage branch →
  accepted cfg req (A ++ B) commitMessage branch →
  post_tasks cfg reqA w = (Return (respond 200 (ResultsBody true rsA)), w1) →
  post_tasks cfg reqB w1 = (Return (respond 200 (ResultsBody true rsB)), w2) →
  post_tasks cfg req w
  = (Return (respond 200 (ResultsBody true (rsA ++ rsB))), w2).
Proof.
  intros HA HB HAB HrunA HrunB.
  rewrite (post_tasks_accepted cfg _ _ _ _ _ HA) in HrunA.
  rewrite (post_tasks_accepted cfg _ _ _ _ _ HB) in HrunB.
  rewrite (post_tasks_accepted cfg _ _ _ _ _ HAB), for_files_app.
  unfold conclude in HrunA, HrunB.
  destruct (for_files cfg commitMessage branch A [] w) as [[ra|e] wa];
    [| discriminate]. injection HrunA as -> ->.
  rewrite for_files_from.
  destruct (for_files cfg commitMessage branch B [] w1) as [[rb|e] wb];
    [| discriminate]. by injection HrunB as -> ->.
Qed.

Lemma batch_splits_witness :
  post_tasks cfg_open
    (server_call "10.0.0.5" (batch ([file_spec "a.txt" "hi"] ++ [file_a_again])))
    fresh
  = (Return (respond 200
               (ResultsBody true
                  ([ok_a] ++ [FileResult.make (VStr "a.txt") "ok" None None
                                (Some (VStr "commit:2"))]))),
     mkWorld
       (MemoryRepo.make (<[("main", "a.txt") := "blob:aG8="]>
                           (<[("main", "a.txt") := "blob:aGk="]> ∅)) 2)
       (calls after_a
        ++ [CallGetContent (GetContent.make "acme" "site" (VStr "a.txt") main);
            CallCreateOrUpdate
              (CreateOrUpdate.make "acme" "site" (VStr "a.txt") default_message
                 "aG8=" main (VStr "blob:aGk="))])).
Proof.
  refine (batch_splits cfg_open
            (server_call "10.0.0.5" (batch [file_spec "a.txt" "hi"]))
            (server_call "10.0.0.5" (batch [file_a_again]))
            (server_call "10.0.0.5"
               (batch ([file_spec "a.txt" "hi"] ++ [file_a_again])))
            default_message main [file_spec "a.txt" "hi"] [file_a_again]
            _ _ fresh
            (mkWorld (remote after_a) ([] ++ calls after_a))
            _ _ _ _ _ _).
  - split; [reflexivity |]. split; [reflexivity | discriminate].
  - split; [reflexivity |]. split; [reflexivity | discriminate].
  - split; [reflexivity |]. split; [reflexivity | discriminate].
  - by vm_compute.
  - by vm_compute.
Defined.

(** X17.  The entries that fail the validation are inert: without them the
    loop makes the same calls, leaves the same world and ends the same way,
    with the same results but for the skipped ones. *)
Theorem skipped_entries_inert `{Platform} `{Octokit St}
    (cfg : Config) (commitMessage branch : value) (fs : list value)
    (w : World St) :
  for_files cfg commitMessage branch (filter (λ f, skips f = false) fs) [] w
  = match for_files cfg commitMessage branch fs [] w with
    | (Return res, w') =>
        (Return (filter (λ r, FileResult.status r ≠ "skipped") res), w')
    | (Throw e, w') => (Throw e, w')
    end.
Proof.
  revert w. induction fs as [|f fs IH]; intros w; [done |].
  rewrite filter_cons.
  destruct (loop_body_outcomes cfg commitMessage branch f [] w)
    as [(e & Hi & Hb) | [(Hs & Hb) | [(Hs & _ & e & _ & Hb)
        | (Hs & _ & enc & sha & r & w1 & Hst & _ & _ & Hb)]]].
  - assert (skips f = false) as Hs by (unfold skips; by rewrite Hi).
    rewrite Hs. case_decide; [| done]. cbn [for_files]. unfold bind.
    by rewrite Hb.
  - rewrite Hs. case_decide; [done |]. cbn [for_files]. unfold bind.
    rewrite Hb, IH.
    rewrite (for_files_from cfg _ _ fs ([] ++ _)).
    destruct (for_files cfg commitMessage branch fs [] w) as [[res|e] w']; [| done].
    cbn [app]. rewrite filter_cons. by case_decide.
  - rewrite Hs. case_decide; [| done]. cbn [for_files]. unfold bind.
    by rewrite Hb.
  - rewrite Hs. case_decide; [| done]. cbn [for_files]. unfold bind.
    rewrite (Hb []).
    rewrite (for_files_from cfg _ _ (filter _ fs) ([] ++ _)), IH.
    rewrite (for_files_from cfg _ _ fs ([] ++ _)).
    destruct (for_files cfg commitMessage branch fs [] w1) as [[res|e] w']; [| done].
    cbn [app]. rewrite filter_cons. case_decide as Hd; [done |].
    destruct Hst as [E | E]; rewrite E in Hd; discriminate.
Qed.
